(** * Tic-tac-toe (src/main.py): a shallow embedding and its properties

    The Python program keeps one mutable [Board] (a list of three lists
    of one-character strings), reads the human's moves from standard
    input, draws the computer's moves from the process-wide random
    source and prints to standard output.  Here the whole of that
    mutable state is one record, [World], threaded through a small
    state-and-exception monad [M]; pure queries of the board are plain
    functions on the list of lists.

    Python integers are [Z]; list indices follow Python's rules (an
    index [i] with [-len <= i < 0] counts from the end, anything
    outside [-len, len) raises [IndexError]).  Strings are byte strings,
    so the model of [str.split] and [int] covers ASCII input lines.

    The file has three parts: the program, the vocabulary in which its
    properties are stated, and the properties with their proofs. *)

From Stdlib Require Import ZArith List String Ascii Bool Lia DecimalString
  DecimalPos Sorted.
From stdpp Require Import base option list strings.
Import ListNotations.

Local Open Scope Z_scope.
Local Open Scope string_scope.
Local Open Scope list_scope.

(** ** Exceptions and results *)

(** The exception classes that the program can raise: its own
    [CellIsNotEmptyError] and the built-in ones raised by list indexing,
    [int], tuple unpacking, reading an unassigned local variable and
    [input] at the end of the input. *)
Inductive exn : Type :=
  | CellIsNotEmptyError
  | IndexError
  | ValueError
  | UnboundLocalError
  | EOFError.

#[global] Instance exn_eq_dec : EqDecision exn.
Proof. solve_decision. Defined.

Inductive result (A : Type) : Type :=
  | Ok (a : A)
  | Raise (e : exn).
Arguments Ok {A} a.
Arguments Raise {A} e.

#[global] Instance result_ret : MRet result := fun A a => Ok a.
#[global] Instance result_bind : MBind result := fun A B f r =>
  match r with
  | Ok a => f a
  | Raise e => Raise e
  end.

(** ** Python list indexing *)

(** [norm_index len i] is the position that index [i] denotes in a list
    of length [len], or [None] where Python raises [IndexError]. *)
Definition norm_index (len : nat) (i : Z) : option nat :=
  if decide (0 <= i < Z.of_nat len) then Some (Z.to_nat i)
  else if decide (- Z.of_nat len <= i < 0) then Some (Z.to_nat (i + Z.of_nat len))
  else None.

(** [l[i]] *)
Definition getitem {A} (l : list A) (i : Z) : result A :=
  match norm_index (length l) i with
  | Some k => match l !! k with
              | Some x => Ok x
              | None => Raise IndexError
              end
  | None => Raise IndexError
  end.

(** [l[i] = x] *)
Definition setitem {A} (l : list A) (i : Z) (x : A) : result (list A) :=
  match norm_index (length l) i with
  | Some k => Ok (<[k:=x]> l)
  | None => Raise IndexError
  end.

(** [range(3)] *)
Definition range3 : list Z := [0; 1; 2].

(** [all(f(x) for x in l)]: the generator is consumed up to the first
    false element, so an exception in a later element is not raised. *)
Fixpoint all_gen {A} (f : A -> result bool) (l : list A) : result bool :=
  match l with
  | [] => Ok true
  | x :: xs => b ← f x; if b : bool then all_gen f xs else Ok false
  end.

(** [[y for x in l for y in f(x)]] *)
Fixpoint collect {A B} (f : A -> result (list B)) (l : list A) : result (list B) :=
  match l with
  | [] => Ok []
  | x :: xs => ys ← f x; zs ← collect f xs; Ok (ys ++ zs)
  end.

(** ** The board: pure queries *)

Definition PLAYERS_VALUES : list string := ["X"; "O"].

(** The value of [Board._board]. *)
Abbreviation Board := (list (list string)).

(** [Board.__post_init__] *)
Definition new_board : Board :=
  replicate 3 (replicate 3 " ").

(** [Board.is_full] *)
Definition is_full (b : Board) : bool :=
  forallb (fun row => forallb (fun spot => negb (spot =? " ")) row) b.

(** [Board.get_empty_spots] *)
Definition get_empty_spots (b : Board) : result (list (Z * Z)) :=
  collect (fun i =>
    collect (fun j =>
      row ← getitem b i;
      spot ← getitem row j;
      Ok (if spot =? " " then [(i, j)] else [])) range3) range3.

(** [Board.__str__] *)
Definition Board_str (b : Board) : string :=
  String.concat (String "010" "")
    (map (fun row =>
            String.concat (String "010" "") [String.concat " | " row; "-----"])
         b).

(** The loop of [Board.check_winner] over the rows and columns [idxs];
    [Ok true] stands for one of its [return True]. *)
Fixpoint check_rows_cols (b : Board) (player_value : string) (idxs : list Z)
  : result bool :=
  match idxs with
  | [] => Ok false
  | i :: rest =>
      row ← getitem b i;
      if forallb (fun spot => spot =? player_value) row then Ok true
      else
        col ← all_gen (fun j =>
                 r ← getitem b j;
                 spot ← getitem r i;
                 Ok (spot =? player_value)) range3;
        if col : bool then Ok true
        else check_rows_cols b player_value rest
  end.

(** [self._board[i][j] == player_value] *)
Definition cell_is (b : Board) (player_value : string) (i j : Z) : result bool :=
  r ← getitem b i;
  spot ← getitem r j;
  Ok (spot =? player_value).

(** [x and y and z], evaluated left to right. *)
Definition and3 (x y z : result bool) : result bool :=
  bx ← x;
  if bx : bool then (by' ← y; if by' : bool then z else Ok false)
  else Ok false.

(** [Board.check_winner] *)
Definition check_winner (b : Board) (player_value : string) : result bool :=
  lines ← check_rows_cols b player_value range3;
  if lines : bool then Ok true
  else
    d1 ← and3 (cell_is b player_value 0 0) (cell_is b player_value 1 1)
              (cell_is b player_value 2 2);
    if d1 : bool then Ok true
    else
      d2 ← and3 (cell_is b player_value 0 2) (cell_is b player_value 1 1)
                (cell_is b player_value 2 0);
      if d2 : bool then Ok true else Ok false.

(** ** The mutable state and its monad *)

(** Everything the program can read or change: the board object, the
    lines still to be read from standard input, what has been written
    to standard output (one entry per [print] or prompt), and the random
    source as an unbounded supply of draws with the number already
    consumed. *)
Record World : Type := mkWorld {
  _board : Board;
  stdin : list string;
  stdout : list string;
  draws : nat -> nat;
  drawn : nat
}.

(** A computation: from the world it starts in to the value it returns
    or the exception it raises, and the world it leaves.  What was done
    before an exception was raised stays done. *)
Definition M (A : Type) : Type := World -> result A * World.

#[global] Instance M_ret : MRet M := fun A a w => (Ok a, w).
#[global] Instance M_bind : MBind M := fun A B f m w =>
  match m w with
  | (Ok a, w') => f a w'
  | (Raise e, w') => (Raise e, w')
  end.

(** [raise e] *)
Definition raise {A} (e : exn) : M A := fun w => (Raise e, w).

(** A computation that does not touch the world. *)
Definition lift {A} (r : result A) : M A := fun w => (r, w).

(** The current value of [_board]. *)
Definition get_board : M Board := fun w => (Ok (_board w), w).

(** The new value of [_board] after an assignment to one of its cells,
    or for a new [Board] object. *)
Definition put_board (b : Board) : M unit := fun w =>
  (Ok tt, mkWorld b (stdin w) (stdout w) (draws w) (drawn w)).

(** [print(s)] *)
Definition print (s : string) : M unit := fun w =>
  (Ok tt, mkWorld (_board w) (stdin w) (stdout w ++ [s]) (draws w) (drawn w)).

(** [random._randbelow(n)]: the next draw of the source, reduced to
    [0 <= k < n]; every such [k] is the result for some source. *)
Definition randbelow (n : nat) : M nat := fun w =>
  (Ok (draws w (drawn w) mod n)%nat,
   mkWorld (_board w) (stdin w) (stdout w) (draws w) (S (drawn w))).

(** [random.choice(seq)] *)
Definition random_choice {A} (seq : list A) : M A :=
  match seq with
  | [] => raise IndexError
  | _ => k ← randbelow (length seq);
         match seq !! k with
         | Some x => mret x
         | None => raise IndexError
         end
  end.

(** The loop of [random.shuffle(x)], for [i] from its current value
    down to [1]: [j = randbelow(i + 1); x[i], x[j] = x[j], x[i]]. *)
Fixpoint shuffle_from {A} (i : nat) (x : list A) : M (list A) :=
  match i with
  | O => mret x
  | S i' =>
      j ← randbelow (S (S i'));
      match x !! S i', x !! j with
      | Some xi, Some xj => shuffle_from i' (<[j:=xi]> (<[S i':=xj]> x))
      | _, _ => raise IndexError
      end
  end.

(** [random.shuffle(x)]; the list is shuffled in place, the shuffled
    list is returned here. *)
Definition random_shuffle {A} (x : list A) : M (list A) :=
  shuffle_from (length x - 1)%nat x.

(** ** The board: methods with effects *)

(** [Board.is_cell_empty] *)
Definition is_cell_empty (row col : Z) : M bool :=
  b ← get_board;
  r ← lift (getitem b row);
  spot ← lift (getitem r col);
  let check_result := spot =? " " in
  _ ← (if negb check_result then print "Эта клетка уже занята." else mret tt);
  mret check_result.

(** [Board.set_cell_value]; the assignment [self._board[row][col] = value]
    changes the row list in place, which is the row of the board. *)
Definition set_cell_value (row col : Z) (value : string) : M (Z * Z) :=
  empty ← is_cell_empty row col;
  if negb empty then raise CellIsNotEmptyError
  else
    b ← get_board;
    r ← lift (getitem b row);
    r' ← lift (setitem r col value);
    b' ← lift (setitem b row r');
    _ ← put_board b';
    mret (row, col).

(** ** Reading a move: [str.split], [int] and tuple unpacking *)

(** The ASCII characters that [str.split()] treats as separators. *)
Definition is_space (c : ascii) : bool :=
  let n := nat_of_ascii c in
  (Nat.leb 9 n && Nat.leb n 13) || (Nat.leb 28 n && Nat.leb n 32).

(** [s.split()], with [tok] the token read so far. *)
Fixpoint split_from (s : string) (tok : string) : list string :=
  match s with
  | EmptyString => match tok with EmptyString => [] | _ => [tok] end
  | String c s' =>
      if is_space c then
        match tok with
        | EmptyString => split_from s' ""
        | _ => tok :: split_from s' ""
        end
      else split_from s' (tok +:+ String c "")
  end.

Definition split (s : string) : list string := split_from s "".

Definition digit_of (c : ascii) : option Z :=
  let n := nat_of_ascii c in
  if Nat.leb 48 n && Nat.leb n 57 then Some (Z.of_nat (n - 48)) else None.

(** The digits of a decimal literal, where single underscores may stand
    between digits: the value read and the number of digits. *)
Fixpoint int_digits (s : string) (acc : Z) (ndigits : nat) (prev_underscore : bool)
  : option (Z * nat) :=
  match s with
  | EmptyString => if prev_underscore then None else Some (acc, ndigits)
  | String c s' =>
      if Ascii.eqb c "_" then
        if prev_underscore then None else int_digits s' acc ndigits true
      else
        match digit_of c with
        | Some d => int_digits s' (10 * acc + d) (S ndigits) false
        | None => None
        end
  end.

(** [int(s)] for a token without white space: an optional sign, then the
    digits; more than 4300 digits are refused (the interpreter's default
    limit). *)
Definition py_int (s : string) : result Z :=
  let '(negative, body) :=
    match s with
    | String "-" rest => (true, rest)
    | String "+" rest => (false, rest)
    | _ => (false, s)
    end in
  match body with
  | EmptyString => Raise ValueError
  | String "_" _ => Raise ValueError
  | _ =>
      match int_digits body 0 0 false with
      | Some (n, k) =>
          if Nat.ltb 4300 k then Raise ValueError
          else Ok (if negative : bool then - n else n)
      | None => Raise ValueError
      end
  end.

(** [row, col = map(int, line.split())]: the tokens are converted one by
    one while the unpacking asks for them; a wrong number of values is a
    [ValueError] as well.  This is Python's reading of a line of ASCII
    characters; the properties below that depend on what a line is read
    as are stated for such lines only (numerals, and lines with an
    ASCII letter, which no reading takes for two integers). *)
Definition parse_move (line : string) : result (Z * Z) :=
  match split line with
  | [] => Raise ValueError
  | [a] => _ ← py_int a; Raise ValueError
  | a :: b :: rest =>
      row ← py_int a;
      col ← py_int b;
      match rest with
      | [] => Ok (row, col)
      | c :: _ => _ ← py_int c; Raise ValueError
      end
  end.

(** ** Players *)

(** The two subclasses of [BasePlayer], each with its [value]. *)
Inductive BasePlayer : Type :=
  | Player (value : string)
  | CPUPlayer (value : string).

Definition value (p : BasePlayer) : string :=
  match p with
  | Player v | CPUPlayer v => v
  end.

(** [isinstance(p, CPUPlayer)] *)
Definition is_CPUPlayer (p : BasePlayer) : bool :=
  match p with
  | CPUPlayer _ => true
  | Player _ => false
  end.

(** [str(p)], the representation that [dataclass] generates (for a
    value without quotes or escapes, as ["X"] and ["O"] are). *)
Definition BasePlayer_str (p : BasePlayer) : string :=
  match p with
  | Player v => "Player(value='" +:+ v +:+ "')"
  | CPUPlayer v => "CPUPlayer(value='" +:+ v +:+ "')"
  end.

Definition message : string :=
  "Введите координаты вашего хода (строка и столбец через пробел, от 0 до 2): ".

(** [input(prompt)] once [line] is known to be next on standard input:
    the prompt is written and the line consumed. *)
Definition input_line (prompt : string) (rest : list string) : M unit := fun w =>
  (Ok tt, mkWorld (_board w) rest (stdout w ++ [prompt]) (draws w) (drawn w)).

(** The [try] statement of [Player.move]: the new binding of the local
    variables [row] and [col], where [rowcol] is the old one ([None]
    while they are unassigned).  The [except] clause only prints. *)
Definition read_move (line : string) (rowcol : option (Z * Z))
  : M (option (Z * Z)) :=
  match parse_move line with
  | Ok rc => mret (Some rc)
  | Raise ValueError | Raise IndexError =>
      _ ← print "Некорректный ввод. Пожалуйста, введите два числа от 0 до 2.";
      mret rowcol
  | Raise e => raise e
  end.

(** The [while True] loop of [Player.move], reading from [lines], the
    lines left on standard input; at the end of the input [input]
    raises [EOFError]. *)
Fixpoint Player_move_loop (lines : list string) (rowcol : option (Z * Z))
  : M (Z * Z) :=
  match lines with
  | [] => _ ← print message; raise EOFError
  | line :: rest =>
      _ ← input_line message rest;
      caught ← read_move line rowcol;
      match caught with
      | None => raise UnboundLocalError
      | Some (row, col) =>
          empty ← is_cell_empty row col;
          if negb empty then Player_move_loop rest caught
          else mret (row, col)
      end
  end.

(** [Player.move] *)
Definition Player_move : M (Z * Z) := fun w =>
  Player_move_loop (stdin w) None w.

(** [str(n)] for an integer. *)
Definition int_str (n : Z) : string :=
  DecimalString.NilZero.string_of_int (Z.to_int n).

(** [CPUPlayer.move] *)
Definition CPUPlayer_move : M (Z * Z) :=
  b ← get_board;
  empty_spots ← lift (get_empty_spots b);
  '(row, col) ← random_choice empty_spots;
  _ ← print ("Компьютер делает ход: " +:+ int_str row +:+ " " +:+ int_str col);
  mret (row, col).

(** [p.move(board)] *)
Definition move (p : BasePlayer) : M (Z * Z) :=
  match p with
  | Player _ => Player_move
  | CPUPlayer _ => CPUPlayer_move
  end.

(** [get_shuffled_players] *)
Definition get_shuffled_players : M (list string) :=
  random_shuffle PLAYERS_VALUES.

(** ** The game loop *)

(** Where one pass through the body of the [while True] loop of [main]
    leaves the game: the loop goes on with the next player, or it was
    left through the [break] after a win or after a draw. *)
Inductive outcome : Type :=
  | AwaitingMove (active : BasePlayer)
  | Won (mark : string)
  | Draw.

(** The body of the loop, from the placement on: [(row, col)] is what
    [current_player.move(board)] returned. *)
Definition place_and_judge (rowcol : Z * Z)
    (current_player human_player cpu_player : BasePlayer) : M outcome :=
  let '(row, col) := rowcol in
  _ ← set_cell_value row col (value current_player);
  b ← get_board;
  _ ← print (Board_str b);
  won ← lift (check_winner b (value current_player));
  if won : bool then
    _ ← print ("Игрок " +:+ BasePlayer_str current_player +:+ " выиграл!");
    mret (Won (value current_player))
  else if is_full b then
    _ ← print "Ничья!";
    mret Draw
  else
    mret (AwaitingMove
            (if is_CPUPlayer current_player then human_player else cpu_player)).

(** The body of the loop, for any procedure [select] that the current
    player's [move] may be. *)
Definition loop_body (select : M (Z * Z))
    (current_player human_player cpu_player : BasePlayer) : M outcome :=
  rowcol ← select;
  place_and_judge rowcol current_player human_player cpu_player.

(** One pass through the loop of [main]. *)
Definition turn (current_player human_player cpu_player : BasePlayer) : M outcome :=
  loop_body (move current_player) current_player human_player cpu_player.

(** At most [n] passes through the loop, where [select p] is the [move]
    method of player [p]; [AwaitingMove] is returned when the loop has
    not been left after [n] passes. *)
Fixpoint play_with (select : BasePlayer -> M (Z * Z)) (n : nat)
    (current_player human_player cpu_player : BasePlayer) : M outcome :=
  match n with
  | O => mret (AwaitingMove current_player)
  | S n' =>
      o ← loop_body (select current_player)
            current_player human_player cpu_player;
      match o with
      | AwaitingMove next => play_with select n' next human_player cpu_player
      | _ => mret o
      end
  end.

(** The loop of [main], with the two players of the program. *)
Definition play : nat -> BasePlayer -> BasePlayer -> BasePlayer -> M outcome :=
  play_with move.

(** The start of [main], up to the loop: the two players and the one
    that moves first. *)
Definition main_setup : M (BasePlayer * BasePlayer * BasePlayer) :=
  shuffled_values ← get_shuffled_players;
  shuffled_values ← random_shuffle shuffled_values;
  v0 ← lift (getitem shuffled_values 0);
  v1 ← lift (getitem shuffled_values 1);
  let human_player := Player v0 in
  let cpu_player := CPUPlayer v1 in
  let current_player :=
    if value human_player =? "X" then human_player else cpu_player in
  _ ← print ("Первый ход делает: " +:+ BasePlayer_str current_player);
  _ ← put_board new_board;
  _ ← print (Board_str new_board);
  mret (current_player, human_player, cpu_player).

(** [main], with at most [n] passes through its loop. *)
Definition main (n : nat) : M outcome :=
  '(current_player, human_player, cpu_player) ← main_setup;
  play n current_player human_player cpu_player.

(** A world to start from: a new board, the given input lines, nothing
    printed yet, and the given random source. *)
Definition initial_world (lines : list string) (source : nat -> nat) : World :=
  mkWorld new_board lines [] source 0.

(** * Vocabulary of the properties *)

(** ** Boards and cells *)

(** Three rows of three cells, as [Board.__post_init__] makes the board
    and as assignments to cells keep it. *)
Definition wf_board (b : Board) : Prop :=
  length b = 3%nat /\ Forall (fun row => length row = 3%nat) b.

(** The cell in row [i] and column [j], both counted from 0. *)
Definition cell (b : Board) (i j : nat) : option string :=
  row ← b !! i; row !! j.

(** The cell at [ij] holds [mark]. *)
Definition cell_eqb (b : Board) (mark : string) (ij : nat * nat) : bool :=
  match cell b ij.1 ij.2 with
  | Some spot => spot =? mark
  | None => false
  end.

(** The number of cells that hold [mark]. *)
Definition count_mark (b : Board) (mark : string) : nat :=
  length (List.filter (fun spot => spot =? mark) (concat b)).

(** The nine coordinates, row by row. *)
Definition all_cells : list (Z * Z) :=
  [(0, 0); (0, 1); (0, 2); (1, 0); (1, 1); (1, 2); (2, 0); (2, 1); (2, 2)].

(** Row-major order on coordinates: an earlier row, or the same row and
    an earlier column. *)
Definition row_major (p q : Z * Z) : Prop :=
  p.1 < q.1 \/ (p.1 = q.1 /\ p.2 < q.2).

(** The cell at the in-range coordinate [ij] is empty. *)
Definition is_empty_at (b : Board) (ij : Z * Z) : bool :=
  cell_eqb b " " (Z.to_nat ij.1, Z.to_nat ij.2).

(** ** Lines *)

(** The eight lines of the board: three rows, three columns, two
    diagonals. *)
Definition lines : list (list (nat * nat)) :=
  [ [(0, 0); (0, 1); (0, 2)]; [(1, 0); (1, 1); (1, 2)]; [(2, 0); (2, 1); (2, 2)];
    [(0, 0); (1, 0); (2, 0)]; [(0, 1); (1, 1); (2, 1)]; [(0, 2); (1, 2); (2, 2)];
    [(0, 0); (1, 1); (2, 2)]; [(0, 2); (1, 1); (2, 0)] ]%nat.

(** All cells of the line hold [mark]. *)
Definition line_held (b : Board) (mark : string) (l : list (nat * nat)) : Prop :=
  forall i j, (i, j) ∈ l -> cell b i j = Some mark.

(** Some line has all its cells equal to [mark]. *)
Definition has_line (b : Board) (mark : string) : bool :=
  existsb (fun l => forallb (cell_eqb b mark) l) lines.

(** ** Placement *)

(** The position that [b[row][col]] denotes, if it denotes one. *)
Definition locate (b : Board) (row col : Z) : option (nat * nat) :=
  kr ← norm_index (length b) row;
  r ← b !! kr;
  kc ← norm_index (length r) col;
  _ ← r !! kc;
  Some (kr, kc).

(** The board with the cell at [(kr, kc)] replaced. *)
Definition set_cell (b : Board) (kr kc : nat) (value : string) : Board :=
  alter (fun r => <[kc:=value]> r) kr b.

(** The world with another board. *)
Definition with_board (b : Board) (w : World) : World :=
  mkWorld b (stdin w) (stdout w) (draws w) (drawn w).

(** What [is_cell_empty] prints for an occupied cell. *)
Definition occupied_message : string := "Эта клетка уже занята.".

(** The placements [(row, col, value)] of [moves], one after the other;
    the first one that fails ends the sequence with its error. *)
Fixpoint place_all (moves : list (Z * Z * string)) : M unit :=
  match moves with
  | [] => mret tt
  | (row, col, value) :: rest =>
      _ ← set_cell_value row col value;
      place_all rest
  end.

(** Each placement is at an in-range coordinate with one of the marks. *)
Definition valid_moves (moves : list (Z * Z * string)) : Prop :=
  forall row col value,
    (row, col, value) ∈ moves ->
    0 <= row <= 2 /\ 0 <= col <= 2 /\ value ∈ PLAYERS_VALUES.

(** ** Sample boards, worlds and moves *)

(** A random source whose draws are all 0. *)
Definition zeros : nat -> nat := fun _ => 0%nat.

(** ["X"] holds the first row. *)
Definition board_x_row : Board :=
  [["X"; "X"; "X"]; ["O"; "O"; " "]; [" "; " "; " "]].

(** Only the centre is taken. *)
Definition board_centre_x : Board :=
  [[" "; " "; " "]; [" "; "X"; " "]; [" "; " "; " "]].

Definition world_centre_x : World := mkWorld board_centre_x [] [] zeros 0.

(** A full board without a line. *)
Definition board_full : Board :=
  [["X"; "O"; "X"]; ["X"; "O"; "O"]; ["O"; "X"; "X"]].

(** Nine placements, in turn ["X"] and ["O"], that fill the board. *)
Definition nine_moves : list (Z * Z * string) :=
  [(0, 0, "X"); (0, 1, "O"); (0, 2, "X");
   (1, 1, "O"); (1, 0, "X"); (1, 2, "O");
   (2, 1, "X"); (2, 0, "O"); (2, 2, "X")].

(** The world after the human, holding ["X"], has taken the centre. *)
Definition world_after_centre : World :=
  snd (main 1 (initial_world ["1 1"] zeros)).

(** ** Lines of input *)

(** The cell that the coordinate [rc] denotes under Python indexing. *)
Definition cell_at (b : Board) (rc : Z * Z) : option string :=
  match locate b rc.1 rc.2 with
  | Some (kr, kc) => cell b kr kc
  | None => None
  end.

(** What a line of input is to [Player.move]: stated on the characters
    of the line, not through the parsing that the program does. *)

(** Some character of [s] satisfies [f]. *)
Fixpoint any_char (f : ascii -> bool) (s : string) : bool :=
  match s with
  | EmptyString => false
  | String c s' => f c || any_char f s'
  end.

(** One of the letters [A] to [Z] and [a] to [z]. *)
Definition is_letter (c : ascii) : bool :=
  let n := nat_of_ascii c in
  (Nat.leb 65 n && Nat.leb n 90) || (Nat.leb 97 n && Nat.leb n 122).

(** The line holds a letter, so it is not two integers. *)
Definition has_letter (line : string) : bool := any_char is_letter line.

(** The line that gives the coordinate [(row, col)]: the decimal numeral
    of the row, one space, the decimal numeral of the column. *)
Definition move_line (row col : Z) : string :=
  int_str row +:+ " " +:+ int_str col.

(** The decimal numeral of [z] has at most 4300 characters. *)
Definition short (z : Z) : Prop :=
  (String.length (int_str z) <= 4300)%nat.

(** [line] gives the coordinate [rc], in short numerals. *)
Definition names_cell (line : string) (rc : Z * Z) : Prop :=
  line = move_line rc.1 rc.2 /\ short rc.1 /\ short rc.2.

(** The coordinate [rc] denotes a cell of the board that is not blank. *)
Definition occupied_at (b : Board) (rc : Z * Z) : Prop :=
  exists spot, cell_at b rc = Some spot /\ spot <> " ".

(** A line that [Player.move] answers by asking again, once an earlier
    line of the same call has given two integers: a line with a letter,
    or a line that gives the coordinate of an occupied cell. *)
Definition passed_over (b : Board) (line : string) : Prop :=
  has_letter line = true \/
  exists rc, names_cell line rc /\ occupied_at b rc.

(** The number that the digits of [d] make after the digits that made
    [acc]. *)
Fixpoint uint_value (d : Decimal.uint) (acc : Z) : Z :=
  match d with
  | Decimal.Nil => acc
  | Decimal.D0 l => uint_value l (10 * acc + 0)
  | Decimal.D1 l => uint_value l (10 * acc + 1)
  | Decimal.D2 l => uint_value l (10 * acc + 2)
  | Decimal.D3 l => uint_value l (10 * acc + 3)
  | Decimal.D4 l => uint_value l (10 * acc + 4)
  | Decimal.D5 l => uint_value l (10 * acc + 5)
  | Decimal.D6 l => uint_value l (10 * acc + 6)
  | Decimal.D7 l => uint_value l (10 * acc + 7)
  | Decimal.D8 l => uint_value l (10 * acc + 8)
  | Decimal.D9 l => uint_value l (10 * acc + 9)
  end.

(** The world with another random source. *)
Definition with_draws (source : nat -> nat) (w : World) : World :=
  mkWorld (_board w) (stdin w) (stdout w) source (drawn w).

(** What the [except] clause of [Player.move] prints. *)
Definition invalid_message : string :=
  "Некорректный ввод. Пожалуйста, введите два числа от 0 до 2.".

(** The world once [input] has written its prompt and the lines [rest]
    are left to read. *)
Definition prompted (rest : list string) (w : World) : World :=
  mkWorld (_board w) rest (stdout w ++ [message]) (draws w) (drawn w).

(** The world with one more entry printed. *)
Definition printed (s : string) (w : World) : World :=
  mkWorld (_board w) (stdin w) (stdout w ++ [s]) (draws w) (drawn w).

(** The centre is taken, and five lines wait on standard input. *)
Definition world_five_lines : World :=
  mkWorld board_centre_x ["1 1"; "abc"; "1 1"; "0 0"; "2 2"] [] zeros 0.

(** The centre is taken, and the lines on standard input never give an
    empty cell. *)
Definition world_stubborn_lines : World :=
  mkWorld board_centre_x ["1 1"; "one one"; "-2 -2"] [] zeros 0.

(** ** Passes through the loop *)

(** How the loop of [main] goes on after the mark of [current] has been
    placed and the board is [b]. *)
Definition judged (b : Board) (current human cpu : BasePlayer) : outcome :=
  if has_line b (value current) then Won (value current)
  else if is_full b then Draw
  else AwaitingMove (if is_CPUPlayer current then human else cpu).

(** ["X"] has moved as often as ["O"], or once more. *)
Definition marks_balanced (b : Board) : Prop :=
  (count_mark b "O" <= count_mark b "X" <= S (count_mark b "O"))%nat.

(** Every cell is blank or holds one of the two marks. *)
Definition cells_valid (b : Board) : Prop :=
  Forall (Forall (fun spot => spot ∈ " " :: PLAYERS_VALUES)) b.

(** * Properties *)

(** Unfold the outermost bind of the state monad. *)
Ltac step_bind := unfold mbind at 1; unfold M_bind.

(** Decide a goal about a board of nine named cells by the 512 cases of
    which cells equal [mark]; [tac] closes each case. *)
Ltac by_cells mark tac :=
  match goal with
  | |- context [ [[?c00; ?c01; ?c02]; [?c10; ?c11; ?c12]; [?c20; ?c21; ?c22]] ] =>
      cbv -[String.eqb lt];
      generalize (c00 =? mark), (c01 =? mark), (c02 =? mark),
                 (c10 =? mark), (c11 =? mark), (c12 =? mark),
                 (c20 =? mark), (c21 =? mark), (c22 =? mark);
      intros [] [] [] [] [] [] [] [] []; tac
  end.

(** ** Shape of the board and its cells *)

Lemma wf_board_inv (b : Board) :
  wf_board b ->
  exists c00 c01 c02 c10 c11 c12 c20 c21 c22 : string,
    b = [[c00; c01; c02]; [c10; c11; c12]; [c20; c21; c22]].
Proof.
  intros [Hlen Hrows].
  destruct b as [|r0 [|r1 [|r2 [|r3 b]]]]; try discriminate Hlen.
  inversion Hrows as [|? ? H0 Hrows1]; subst.
  inversion Hrows1 as [|? ? H1 Hrows2]; subst.
  inversion Hrows2 as [|? ? H2 _]; subst.
  destruct r0 as [|? [|? [|? [|? ?]]]]; try discriminate H0.
  destruct r1 as [|? [|? [|? [|? ?]]]]; try discriminate H1.
  destruct r2 as [|? [|? [|? [|? ?]]]]; try discriminate H2.
  eauto 10.
Qed.

Lemma wf_new_board : wf_board new_board.
Proof. split; [reflexivity | repeat constructor]. Qed.

(** ** The winner check *)

Lemma check_winner_has_line (b : Board) (mark : string) :
  wf_board b -> check_winner b mark = Ok (has_line b mark).
Proof.
  intros Hwf. destruct (wf_board_inv b Hwf)
    as (c00 & c01 & c02 & c10 & c11 & c12 & c20 & c21 & c22 & ->).
  by_cells mark ltac:(reflexivity).
Qed.

Lemma cell_eqb_true (b : Board) (mark : string) (i j : nat) :
  cell_eqb b mark (i, j) = true <-> cell b i j = Some mark.
Proof.
  unfold cell_eqb; simpl. destruct (cell b i j) as [spot|].
  - rewrite String.eqb_eq. split; congruence.
  - split; discriminate.
Qed.

Lemma has_line_true (b : Board) (mark : string) :
  has_line b mark = true <-> exists l, l ∈ lines /\ line_held b mark l.
Proof.
  unfold has_line, line_held. rewrite existsb_exists. split.
  - intros (l & Hin & Hall). exists l. split; [by apply list_elem_of_In|].
    intros i j Hij. apply cell_eqb_true.
    rewrite forallb_forall in Hall. by apply Hall, list_elem_of_In.
  - intros (l & Hin & Hall). exists l. split; [by apply list_elem_of_In|].
    apply forallb_forall. intros [i j] Hij.
    by apply cell_eqb_true, Hall, list_elem_of_In.
Qed.

Lemma has_line_count (b : Board) (mark : string) :
  wf_board b -> (count_mark b mark < 3)%nat -> has_line b mark = false.
Proof.
  intros Hwf. destruct (wf_board_inv b Hwf)
    as (c00 & c01 & c02 & c10 & c11 & c12 & c20 & c21 & c22 & ->).
  by_cells mark ltac:(first [reflexivity | lia]).
Qed.

(** C1. On a board of three rows of three cells, [check_winner] returns
    a truth value (it raises nothing), and that value is true exactly
    when one of the eight lines has its three cells equal to the mark.
    It is false whenever fewer than three cells hold the mark, and for
    both marks on the new board. *)
Theorem check_winner_iff_line (b : Board) (mark : string) :
  wf_board b ->
  exists won : bool,
    check_winner b mark = Ok won /\
    (won = true <-> exists l, l ∈ lines /\ line_held b mark l) /\
    ((count_mark b mark < 3)%nat -> won = false) /\
    (b = new_board -> mark ∈ PLAYERS_VALUES -> won = false).
Proof.
  intros Hwf. exists (has_line b mark). split; [|split; [|split]].
  - by apply check_winner_has_line.
  - apply has_line_true.
  - by apply has_line_count.
  - intros -> Hmark. apply has_line_count; [done|].
    unfold PLAYERS_VALUES in Hmark.
    apply elem_of_cons in Hmark as [->|Hmark]; [vm_compute; lia|].
    apply elem_of_cons in Hmark as [->|Hmark]; [vm_compute; lia|].
    by apply elem_of_nil in Hmark.
Qed.

Lemma check_winner_iff_line_witness :
  wf_board board_x_row /\
  exists won : bool,
    check_winner board_x_row "X" = Ok won /\
    (won = true <-> exists l, l ∈ lines /\ line_held board_x_row "X" l) /\
    ((count_mark board_x_row "X" < 3)%nat -> won = false) /\
    (board_x_row = new_board -> "X" ∈ PLAYERS_VALUES -> won = false).
Proof.
  assert (Hwf : wf_board board_x_row)
    by (split; [reflexivity | repeat constructor]).
  split; [exact Hwf | exact (check_winner_iff_line board_x_row "X" Hwf)].
Defined.

(** ** Placement *)

Lemma norm_index_lt (len : nat) (i : Z) (k : nat) :
  norm_index len i = Some k -> (k < len)%nat.
Proof.
  unfold norm_index. repeat case_decide; intros [= <-]; lia.
Qed.

Lemma norm_index_nonneg (len : nat) (i : Z) :
  0 <= i < Z.of_nat len -> norm_index len i = Some (Z.to_nat i).
Proof. intros H. unfold norm_index. by rewrite decide_True. Qed.

Lemma norm_index_outside (len : nat) (i : Z) :
  ~ (- Z.of_nat len <= i < Z.of_nat len) -> norm_index len i = None.
Proof. intros H. unfold norm_index. rewrite !decide_False; [done | lia | lia]. Qed.

Lemma getitem_locate (b : Board) (row col : Z) :
  (r ← getitem b row; getitem r col) =
  match locate b row col with
  | Some (kr, kc) =>
      match cell b kr kc with
      | Some spot => Ok spot
      | None => Raise IndexError
      end
  | None => Raise IndexError
  end.
Proof.
  unfold getitem, locate, cell.
  destruct (norm_index (length b) row) as [kr|]; simpl; [|done].
  destruct (b !! kr) as [r|] eqn:Hr; simpl; [|done].
  destruct (norm_index (length r) col) as [kc|]; simpl; [|done].
  destruct (r !! kc) as [spot|] eqn:Hspot; simpl; [|done].
  by rewrite Hr; simpl; rewrite Hspot.
Qed.

Lemma locate_cell (b : Board) (row col : Z) (kr kc : nat) :
  locate b row col = Some (kr, kc) -> is_Some (cell b kr kc).
Proof.
  unfold locate, cell.
  destruct (norm_index (length b) row) as [kr'|]; simpl; [|done].
  destruct (b !! kr') as [r|] eqn:Hr; simpl; [|done].
  destruct (norm_index (length r) col) as [kc'|]; simpl; [|done].
  destruct (r !! kc') as [spot|] eqn:Hspot; simpl; [|done].
  intros [= <- <-]. rewrite Hr; simpl. by rewrite Hspot.
Qed.

(** What [is_cell_empty] does, by the cell that is addressed. *)
Lemma is_cell_empty_eq (row col : Z) (w : World) :
  is_cell_empty row col w =
  match locate (_board w) row col with
  | Some (kr, kc) =>
      match cell (_board w) kr kc with
      | Some spot =>
          if spot =? " " then (Ok true, w)
          else (Ok false, snd (print occupied_message w))
      | None => (Raise IndexError, w)
      end
  | None => (Raise IndexError, w)
  end.
Proof.
  pose proof (getitem_locate (_board w) row col) as H.
  unfold is_cell_empty, mbind, M_bind, get_board, lift.
  unfold mbind, result_bind in H.
  destruct (getitem (_board w) row) as [r|e].
  - destruct (getitem r col) as [spot|e].
    + destruct (locate (_board w) row col) as [[kr kc]|]; [|done].
      destruct (cell (_board w) kr kc) as [spot'|]; [|done].
      injection H as ->. by destruct (spot' =? " ").
    + destruct (locate (_board w) row col) as [[kr kc]|]; [|congruence].
      destruct (cell (_board w) kr kc); congruence.
  - destruct (locate (_board w) row col) as [[kr kc]|]; [|congruence].
    destruct (cell (_board w) kr kc); congruence.
Qed.

Lemma setitem_locate (b : Board) (row col : Z) (kr kc : nat) (value : string) :
  locate b row col = Some (kr, kc) ->
  (r ← getitem b row; r' ← setitem r col value; setitem b row r')
  = Ok (set_cell b kr kc value).
Proof.
  unfold locate, getitem, setitem, set_cell.
  destruct (norm_index (length b) row) as [kr'|]; simpl; [|done].
  destruct (b !! kr') as [r|] eqn:Hr; simpl; [|done].
  destruct (norm_index (length r) col) as [kc'|]; simpl; [|done].
  destruct (r !! kc') as [spot|] eqn:Hspot; simpl; [|done].
  intros [= <- <-]. f_equal.
  apply list_eq. intros i. destruct (decide (i = kr')) as [->|Hne].
  - rewrite list_lookup_insert_eq by (by eapply lookup_lt_Some).
    by rewrite list_lookup_alter_eq, Hr.
  - by rewrite list_lookup_insert_ne, list_lookup_alter_ne.
Qed.

(** What [set_cell_value] does, by the cell that is addressed. *)
Lemma set_cell_value_eq (row col : Z) (value : string) (w : World) :
  set_cell_value row col value w =
  match locate (_board w) row col with
  | Some (kr, kc) =>
      match cell (_board w) kr kc with
      | Some spot =>
          if spot =? " "
          then (Ok (row, col), with_board (set_cell (_board w) kr kc value) w)
          else (Raise CellIsNotEmptyError, snd (print occupied_message w))
      | None => (Raise IndexError, w)
      end
  | None => (Raise IndexError, w)
  end.
Proof.
  unfold set_cell_value. step_bind.
  rewrite is_cell_empty_eq.
  destruct (locate (_board w) row col) as [[kr kc]|] eqn:Hloc; [|done].
  destruct (cell (_board w) kr kc) as [spot|]; [|done].
  destruct (spot =? " "); simpl; [|done].
  pose proof (setitem_locate (_board w) row col kr kc value Hloc) as H.
  unfold mbind, M_bind, get_board, lift, put_board, mret, M_ret.
  unfold mbind, result_bind in H.
  destruct (getitem (_board w) row) as [r|]; [|done].
  destruct (setitem r col value) as [r'|]; [|done].
  by rewrite H.
Qed.

Lemma wf_board_row (b : Board) (k : nat) :
  wf_board b -> (k < 3)%nat -> exists r, b !! k = Some r /\ length r = 3%nat.
Proof.
  intros [Hlen Hrows] Hk.
  destruct (lookup_lt_is_Some_2 b k) as [r Hr]; [lia|].
  exists r. split; [done|]. rewrite Forall_lookup in Hrows. by apply (Hrows k r).
Qed.

Lemma wf_board_cell (b : Board) (i j : nat) :
  wf_board b -> (i < 3)%nat -> (j < 3)%nat -> is_Some (cell b i j).
Proof.
  intros Hwf Hi Hj. destruct (wf_board_row b i Hwf Hi) as (r & Hr & Hlen).
  unfold cell. rewrite Hr; simpl. apply lookup_lt_is_Some_2. lia.
Qed.

Lemma cell_lt (b : Board) (i j : nat) :
  wf_board b -> is_Some (cell b i j) -> (i < 3)%nat /\ (j < 3)%nat.
Proof.
  intros [Hlen Hrows] [spot H]. unfold cell in H.
  destruct (b !! i) as [r|] eqn:Hr; simpl in H; [|done].
  pose proof (lookup_lt_Some _ _ _ Hr).
  pose proof (lookup_lt_Some _ _ _ H).
  rewrite Forall_lookup in Hrows. pose proof (Hrows i r Hr) as Hr3.
  simpl in Hr3. lia.
Qed.

Lemma locate_wf (b : Board) (row col : Z) :
  wf_board b -> -3 <= row <= 2 -> -3 <= col <= 2 ->
  locate b row col = Some (Z.to_nat (row mod 3), Z.to_nat (col mod 3)).
Proof.
  intros Hwf Hrow Hcol. unfold locate.
  assert (Hn : forall i, -3 <= i <= 2 ->
             norm_index 3 i = Some (Z.to_nat (i mod 3))).
  { intros i Hi. unfold norm_index. repeat case_decide; try lia.
    - by rewrite Z.mod_small by lia.
    - f_equal. f_equal. replace i with (i + 3 + (-1) * 3) at 2 by lia.
      rewrite Z_mod_plus_full. rewrite Z.mod_small; lia. }
  destruct Hwf as [Hlen Hrows]. rewrite Hlen, Hn by done. simpl.
  assert (Hk : (Z.to_nat (row mod 3) < 3)%nat)
    by (pose proof (Z.mod_pos_bound row 3); lia).
  destruct (wf_board_row b _ (conj Hlen Hrows) Hk) as (r & Hr & Hr3).
  rewrite Hr; simpl. rewrite Hr3, Hn by done. simpl.
  destruct (lookup_lt_is_Some_2 r (Z.to_nat (col mod 3))) as [spot Hspot].
  { pose proof (Z.mod_pos_bound col 3). lia. }
  by rewrite Hspot.
Qed.

Lemma locate_in_range (b : Board) (row col : Z) :
  wf_board b -> 0 <= row <= 2 -> 0 <= col <= 2 ->
  locate b row col = Some (Z.to_nat row, Z.to_nat col).
Proof.
  intros Hwf Hrow Hcol. rewrite locate_wf by (done || lia).
  by rewrite !Z.mod_small by lia.
Qed.

Lemma locate_outside (b : Board) (row col : Z) :
  wf_board b -> ~ (-3 <= row <= 2 /\ -3 <= col <= 2) ->
  locate b row col = None.
Proof.
  intros Hwf Hout. unfold locate.
  destruct (norm_index (length b) row) as [kr|] eqn:Hkr; simpl; [|done].
  pose proof (norm_index_lt _ _ _ Hkr) as Hlt.
  destruct Hwf as [Hlen Hrows]. rewrite Hlen in Hkr, Hlt.
  destruct (wf_board_row b kr (conj Hlen Hrows) Hlt) as (r & Hr & Hr3).
  rewrite Hr; simpl. rewrite Hr3.
  assert (-3 <= row <= 2).
  { destruct (decide (-3 <= row <= 2)); [done|].
    rewrite norm_index_outside in Hkr by lia. done. }
  by rewrite norm_index_outside by lia.
Qed.

Lemma cell_set_cell (b : Board) (kr kc : nat) (value : string) (i j : nat) :
  cell (set_cell b kr kc value) i j =
  if decide (i = kr /\ j = kc) then (fun _ => value) <$> cell b i j else cell b i j.
Proof.
  unfold cell, set_cell. destruct (decide (i = kr)) as [->|Hi].
  - rewrite list_lookup_alter_eq. destruct (b !! kr) as [r|]; simpl.
    + destruct (decide (j = kc)) as [->|Hj].
      * rewrite decide_True by done.
        destruct (r !! kc) as [x|] eqn:Hx; simpl.
        -- apply list_lookup_insert_eq. by eapply lookup_lt_Some.
        -- apply lookup_ge_None. rewrite length_insert.
           by apply lookup_ge_None.
      * rewrite decide_False by tauto. by apply list_lookup_insert_ne.
    + by case_decide.
  - rewrite list_lookup_alter_ne by done. rewrite decide_False by tauto. done.
Qed.

Lemma wf_set_cell (b : Board) (kr kc : nat) (value : string) :
  wf_board b -> wf_board (set_cell b kr kc value).
Proof.
  intros [Hlen Hrows]. unfold set_cell. split.
  - by rewrite length_alter.
  - apply Forall_alter; [done|]. intros r _ Hr. by rewrite length_insert.
Qed.

(** C2. A placement at an in-range coordinate whose cell is not empty
    fails with [CellIsNotEmptyError], whatever the mark; the only change
    to the world is the message printed, so the board is the same.  And
    no placement, at any coordinate and with any value, changes a cell
    that holds a mark. *)
Theorem set_cell_value_occupied (w : World) (row col : Z) (value : string) :
  wf_board (_board w) ->
  0 <= row <= 2 -> 0 <= col <= 2 ->
  cell (_board w) (Z.to_nat row) (Z.to_nat col) <> Some " " ->
  set_cell_value row col value w
    = (Raise CellIsNotEmptyError, snd (print occupied_message w)) /\
  _board (snd (set_cell_value row col value w)) = _board w /\
  forall (row' col' : Z) (value' : string) (i j : nat) (mark : string),
    mark ∈ PLAYERS_VALUES ->
    cell (_board w) i j = Some mark ->
    cell (_board (snd (set_cell_value row' col' value' w))) i j = Some mark.
Proof.
  intros Hwf Hrow Hcol Hocc.
  assert (Heq : set_cell_value row col value w
                = (Raise CellIsNotEmptyError, snd (print occupied_message w))).
  { rewrite set_cell_value_eq, locate_in_range by done.
    destruct (wf_board_cell (_board w) (Z.to_nat row) (Z.to_nat col))
      as [spot Hspot]; [done | lia | lia |].
    rewrite Hspot. destruct (String.eqb_spec spot " ") as [->|Hne]; [|done].
    congruence. }
  split; [done|]. split; [by rewrite Heq|].
  intros row' col' value' i j mark Hmark Hcell.
  rewrite set_cell_value_eq.
  destruct (locate (_board w) row' col') as [[kr kc]|]; [|done].
  destruct (cell (_board w) kr kc) as [spot|] eqn:Hspot; [|done].
  destruct (String.eqb_spec spot " ") as [->|Hne]; [|done].
  simpl. rewrite cell_set_cell. case_decide as Hij; [|done].
  destruct Hij as [-> ->]. rewrite Hcell in Hspot. injection Hspot as ->.
  unfold PLAYERS_VALUES in Hmark.
  repeat (apply elem_of_cons in Hmark as [Hmark|Hmark]; [discriminate|]).
  by apply elem_of_nil in Hmark.
Qed.

Lemma set_cell_value_occupied_witness :
  wf_board (_board world_centre_x) /\
  cell (_board world_centre_x) (Z.to_nat 1) (Z.to_nat 1) <> Some " " /\
  set_cell_value 1 1 "O" world_centre_x
    = (Raise CellIsNotEmptyError, snd (print occupied_message world_centre_x)) /\
  _board (snd (set_cell_value 1 1 "O" world_centre_x)) = _board world_centre_x /\
  forall (row' col' : Z) (value' : string) (i j : nat) (mark : string),
    mark ∈ PLAYERS_VALUES ->
    cell (_board world_centre_x) i j = Some mark ->
    cell (_board (snd (set_cell_value row' col' value' world_centre_x))) i j
      = Some mark.
Proof.
  assert (Hwf : wf_board (_board world_centre_x))
    by (split; [reflexivity | repeat constructor]).
  assert (Hocc : cell (_board world_centre_x) (Z.to_nat 1) (Z.to_nat 1)
                 <> Some " ") by (simpl; discriminate).
  split; [exact Hwf|]. split; [exact Hocc|].
  apply (set_cell_value_occupied world_centre_x 1 1 "O" Hwf); [lia | lia | exact Hocc].
Defined.

(** C4, as the claim states it, fails: on the new board a placement in
    row 3 raises [IndexError], not [CellIsNotEmptyError], and a placement
    at [(-1, -1)] succeeds and marks the last cell of the last row. *)
Lemma set_cell_value_out_of_range_counterexample :
  ~ (forall (w : World) (row col : Z) (value : string),
       wf_board (_board w) -> value ∈ PLAYERS_VALUES ->
       ~ (0 <= row <= 2 /\ 0 <= col <= 2) ->
       fst (set_cell_value row col value w) = Raise CellIsNotEmptyError /\
       _board (snd (set_cell_value row col value w)) = _board w) /\
  fst (set_cell_value 3 0 "X" (mkWorld new_board [] [] zeros 0))
    = Raise IndexError /\
  set_cell_value (-1) (-1) "X" (mkWorld new_board [] [] zeros 0)
    = (Ok (-1, -1),
       mkWorld [[" "; " "; " "]; [" "; " "; " "]; [" "; " "; "X"]] [] [] zeros 0).
Proof.
  split; [|split; reflexivity].
  intros H.
  destruct (H (mkWorld new_board [] [] zeros 0) 3 0 "X") as [Hfst _].
  - apply wf_new_board.
  - unfold PLAYERS_VALUES. apply elem_of_cons. by left.
  - lia.
  - vm_compute in Hfst. discriminate Hfst.
Qed.

(** C4, amended. A placement whose row or column lies outside [-3, 2]
    (any coordinate of 3 or more among them) fails with [IndexError],
    which is another exception than [CellIsNotEmptyError]; nothing is
    printed and the board is unchanged. *)
Theorem set_cell_value_out_of_range (w : World) (row col : Z) (value : string) :
  wf_board (_board w) ->
  ~ (-3 <= row <= 2 /\ -3 <= col <= 2) ->
  set_cell_value row col value w = (Raise IndexError, w) /\
  IndexError <> CellIsNotEmptyError.
Proof.
  intros Hwf Hout. split; [|discriminate].
  by rewrite set_cell_value_eq, locate_outside.
Qed.

Lemma set_cell_value_out_of_range_witness :
  wf_board (_board world_centre_x) /\
  ~ (-3 <= 1 <= 2 /\ -3 <= 3 <= 2) /\
  set_cell_value 1 3 "O" world_centre_x = (Raise IndexError, world_centre_x) /\
  IndexError <> CellIsNotEmptyError.
Proof.
  assert (Hwf : wf_board (_board world_centre_x))
    by (split; [reflexivity | repeat constructor]).
  assert (Hout : ~ (-3 <= 1 <= 2 /\ -3 <= 3 <= 2)) by lia.
  split; [exact Hwf|]. split; [exact Hout|].
  exact (set_cell_value_out_of_range world_centre_x 1 3 "O" Hwf Hout).
Defined.

(** X2. Coordinates from -3 to -1 are Python indices from the end: the
    placement at [(row, col)] does to the board what the placement at
    [(row mod 3, col mod 3)] does, and succeeds when that one does. *)
Lemma set_cell_value_from_the_end (w : World) (row col : Z) (value : string) :
  wf_board (_board w) ->
  -3 <= row <= 2 -> -3 <= col <= 2 ->
  snd (set_cell_value row col value w)
    = snd (set_cell_value (row mod 3) (col mod 3) value w) /\
  (fst (set_cell_value row col value w) = Ok (row, col) <->
   fst (set_cell_value (row mod 3) (col mod 3) value w)
     = Ok (row mod 3, col mod 3)).
Proof.
  intros Hwf Hrow Hcol.
  pose proof (Z.mod_pos_bound row 3). pose proof (Z.mod_pos_bound col 3).
  rewrite !set_cell_value_eq, !locate_wf by (done || lia).
  rewrite !Z.mod_mod by lia.
  destruct (cell _ _ _) as [spot|]; [|by split].
  destruct (spot =? " "); by split.
Qed.

(** ** Empty spots and fullness *)

Lemma get_empty_spots_filter (b : Board) :
  wf_board b -> get_empty_spots b = Ok (List.filter (is_empty_at b) all_cells).
Proof.
  intros Hwf. destruct (wf_board_inv b Hwf)
    as (c00 & c01 & c02 & c10 & c11 & c12 & c20 & c21 & c22 & ->).
  by_cells " " ltac:(reflexivity).
Qed.

Lemma elem_of_all_cells (i j : Z) :
  (i, j) ∈ all_cells <-> 0 <= i <= 2 /\ 0 <= j <= 2.
Proof.
  unfold all_cells. split.
  - intros H.
    repeat (apply elem_of_cons in H as [Heq|H]; [injection Heq as -> ->; lia|]).
    by apply elem_of_nil in H.
  - intros [Hi Hj].
    assert (i = 0 \/ i = 1 \/ i = 2) as [-> | [-> | ->]] by lia;
      assert (j = 0 \/ j = 1 \/ j = 2) as [-> | [-> | ->]] by lia;
      apply list_elem_of_In; simpl; tauto.
Qed.

Lemma row_major_all_cells : StronglySorted row_major all_cells.
Proof.
  unfold all_cells.
  repeat (apply SSorted_cons; [|repeat constructor; unfold row_major; simpl; lia]).
  constructor.
Qed.

Lemma StronglySorted_list_filter {A} (R : A -> A -> Prop) (f : A -> bool)
    (l : list A) :
  StronglySorted R l -> StronglySorted R (List.filter f l).
Proof.
  induction 1 as [|x l Hl IH Hx]; simpl; [constructor|].
  destruct (f x); [|done]. constructor; [done|].
  apply List.Forall_forall. intros y Hy. apply filter_In in Hy as [Hy _].
  rewrite List.Forall_forall in Hx. by apply Hx.
Qed.

(** C8. On a board of three rows of three cells, [get_empty_spots]
    returns a list that holds a coordinate exactly when it is in range
    and its cell is empty, and the list is strictly increasing in
    row-major order: row 0 before row 1 before row 2, and columns in
    increasing order within a row (so no coordinate is listed twice). *)
Theorem get_empty_spots_row_major (b : Board) :
  wf_board b ->
  exists spots : list (Z * Z),
    get_empty_spots b = Ok spots /\
    (forall i j : Z,
       (i, j) ∈ spots <->
       0 <= i <= 2 /\ 0 <= j <= 2 /\
       cell b (Z.to_nat i) (Z.to_nat j) = Some " ") /\
    StronglySorted row_major spots.
Proof.
  intros Hwf. exists (List.filter (is_empty_at b) all_cells).
  split; [by apply get_empty_spots_filter|]. split.
  - intros i j. rewrite list_elem_of_In, filter_In, <- list_elem_of_In.
    rewrite elem_of_all_cells. unfold is_empty_at. rewrite cell_eqb_true.
    simpl. tauto.
  - apply StronglySorted_list_filter, row_major_all_cells.
Qed.

Lemma get_empty_spots_row_major_witness :
  wf_board board_centre_x /\
  exists spots : list (Z * Z),
    get_empty_spots board_centre_x = Ok spots /\
    (forall i j : Z,
       (i, j) ∈ spots <->
       0 <= i <= 2 /\ 0 <= j <= 2 /\
       cell board_centre_x (Z.to_nat i) (Z.to_nat j) = Some " ") /\
    StronglySorted row_major spots.
Proof.
  assert (Hwf : wf_board board_centre_x)
    by (split; [reflexivity | repeat constructor]).
  split; [exact Hwf | exact (get_empty_spots_row_major board_centre_x Hwf)].
Defined.

(** C10. On a board of three rows of three cells, [is_full] is true
    exactly when [get_empty_spots] returns the empty list. *)
Theorem is_full_iff_no_empty_spots (b : Board) :
  wf_board b ->
  (is_full b = true <-> get_empty_spots b = Ok []).
Proof.
  intros Hwf. destruct (wf_board_inv b Hwf)
    as (c00 & c01 & c02 & c10 & c11 & c12 & c20 & c21 & c22 & ->).
  by_cells " " ltac:(split; intros H; first [reflexivity | discriminate H]).
Qed.

Lemma is_full_iff_no_empty_spots_witness :
  wf_board board_full /\
  (is_full board_full = true <-> get_empty_spots board_full = Ok []).
Proof.
  assert (Hwf : wf_board board_full)
    by (split; [reflexivity | repeat constructor]).
  split; [exact Hwf | exact (is_full_iff_no_empty_spots board_full Hwf)].
Defined.

(** ** The computer's move *)

Lemma elem_of_empty_cells (b : Board) (i j : Z) :
  (i, j) ∈ List.filter (is_empty_at b) all_cells <->
  0 <= i <= 2 /\ 0 <= j <= 2 /\ cell b (Z.to_nat i) (Z.to_nat j) = Some " ".
Proof.
  rewrite list_elem_of_In, filter_In, <- list_elem_of_In.
  rewrite elem_of_all_cells. unfold is_empty_at. rewrite cell_eqb_true.
  simpl. tauto.
Qed.

(** [random.choice] of a non-empty list returns one of its elements,
    whatever the random source holds; only the source advances. *)
Lemma random_choice_elem {A} (seq : list A) (w : World) :
  seq <> [] ->
  exists x : A,
    x ∈ seq /\
    random_choice seq w
      = (Ok x, mkWorld (_board w) (stdin w) (stdout w) (draws w) (S (drawn w))).
Proof.
  intros Hne. destruct seq as [|y seq]; [done|].
  unfold random_choice, mbind, M_bind, randbelow.
  set (k := (draws w (drawn w) mod length (y :: seq))%nat).
  destruct (lookup_lt_is_Some_2 (y :: seq) k) as [x Hx].
  { apply Nat.mod_upper_bound. simpl. lia. }
  exists x. split; [by eapply list_elem_of_lookup_2|]. by rewrite Hx.
Qed.

(** C7. On a board of three rows of three cells with at least one empty
    cell, [CPUPlayer.move] returns, for every random source, a coordinate
    from the list that [get_empty_spots] gives: it is in range and its
    cell is empty.  The board is not changed. *)
Theorem CPUPlayer_move_in_empty_spots (w : World) :
  wf_board (_board w) ->
  (exists i j : nat, cell (_board w) i j = Some " ") ->
  exists (row col : Z) (spots : list (Z * Z)) (w' : World),
    CPUPlayer_move w = (Ok (row, col), w') /\
    get_empty_spots (_board w) = Ok spots /\
    (row, col) ∈ spots /\
    0 <= row <= 2 /\ 0 <= col <= 2 /\
    cell (_board w) (Z.to_nat row) (Z.to_nat col) = Some " " /\
    _board w' = _board w.
Proof.
  intros Hwf (i & j & Hij).
  set (spots := List.filter (is_empty_at (_board w)) all_cells).
  assert (Hne : spots <> []).
  { destruct (cell_lt (_board w) i j Hwf) as [Hi Hj]; [by eexists|].
    assert (Hin : (Z.of_nat i, Z.of_nat j) ∈ spots).
    { apply elem_of_empty_cells. rewrite !Nat2Z.id. repeat split; (done || lia). }
    intros Hnil. rewrite Hnil in Hin. by apply elem_of_nil in Hin. }
  destruct (random_choice_elem spots w Hne) as ([row col] & Hin & Hchoice).
  pose proof Hin as Hcell. apply elem_of_empty_cells in Hcell.
  destruct Hcell as (Hrow & Hcol & Hcell).
  exists row, col, spots.
  eexists (mkWorld (_board w) (stdin w) (stdout w ++ [_]) (draws w) (S (drawn w))).
  split.
  { unfold CPUPlayer_move, mbind, M_bind, get_board, lift.
    rewrite get_empty_spots_filter by done. fold spots. rewrite Hchoice.
    reflexivity. }
  split; [by apply get_empty_spots_filter|].
  repeat split; (done || lia).
Qed.

Lemma CPUPlayer_move_in_empty_spots_witness :
  wf_board (_board world_centre_x) /\
  (exists i j : nat, cell (_board world_centre_x) i j = Some " ") /\
  exists (row col : Z) (spots : list (Z * Z)) (w' : World),
    CPUPlayer_move world_centre_x = (Ok (row, col), w') /\
    get_empty_spots (_board world_centre_x) = Ok spots /\
    (row, col) ∈ spots /\
    0 <= row <= 2 /\ 0 <= col <= 2 /\
    cell (_board world_centre_x) (Z.to_nat row) (Z.to_nat col) = Some " " /\
    _board w' = _board world_centre_x.
Proof.
  assert (Hwf : wf_board (_board world_centre_x))
    by (split; [reflexivity | repeat constructor]).
  assert (Hex : exists i j : nat, cell (_board world_centre_x) i j = Some " ")
    by (exists 0%nat, 0%nat; reflexivity).
  split; [exact Hwf|]. split; [exact Hex|].
  exact (CPUPlayer_move_in_empty_spots world_centre_x Hwf Hex).
Defined.

(** ** The start of a session *)

(** Shuffling a list of two elements gives one of its two orders and
    takes one draw from the random source. *)
Lemma random_shuffle_pair {A} (x y : A) (w : World) :
  exists l : list A,
    (l = [x; y] \/ l = [y; x]) /\
    random_shuffle [x; y] w
      = (Ok l, mkWorld (_board w) (stdin w) (stdout w) (draws w) (S (drawn w))).
Proof.
  unfold random_shuffle. cbn [length Nat.sub].
  unfold shuffle_from, mbind, M_bind, randbelow.
  set (k := (draws w (drawn w) mod 2)%nat).
  assert (Hlt : (k < 2)%nat) by (apply Nat.mod_upper_bound; lia).
  clearbody k. destruct k as [|[|k]]; simpl.
  - exists [y; x]. split; [by right | reflexivity].
  - exists [x; y]. split; [by left | reflexivity].
  - lia.
Qed.

Lemma main_setup_players (w : World) :
  exists (current human cpu : BasePlayer) (w' : World),
    main_setup w = (Ok (current, human, cpu), w') /\
    ((human = Player "X" /\ cpu = CPUPlayer "O" /\ current = human) \/
     (human = Player "O" /\ cpu = CPUPlayer "X" /\ current = cpu)) /\
    _board w' = new_board.
Proof.
  unfold main_setup, get_shuffled_players, PLAYERS_VALUES.
  step_bind.
  destruct (random_shuffle_pair "X" "O" w) as (l1 & Hl1 & ->).
  set (w1 := mkWorld _ _ _ _ _).
  assert (Hl2 : exists l2, (l2 = ["X"; "O"] \/ l2 = ["O"; "X"]) /\
            random_shuffle l1 w1
            = (Ok l2, mkWorld (_board w1) (stdin w1) (stdout w1) (draws w1)
                        (S (drawn w1)))).
  { destruct Hl1 as [-> | ->].
    - apply random_shuffle_pair.
    - destruct (random_shuffle_pair "O" "X" w1) as (l2 & Hl2 & Heq).
      exists l2. split; [tauto | done]. }
  destruct Hl2 as (l2 & Hl2 & Heq).
  step_bind. rewrite Heq.
  destruct Hl2 as [-> | ->].
  - eexists (Player "X"), (Player "X"), (CPUPlayer "O"), _.
    split; [reflexivity|]. split; [by left | reflexivity].
  - eexists (CPUPlayer "X"), (Player "O"), (CPUPlayer "X"), _.
    split; [reflexivity|]. split; [by right | reflexivity].
Qed.

(** C9. Whatever the random source, the start of [main] succeeds, makes
    the human player and the computer player with the two different
    marks, and the loop starts in [AwaitingMove] of the player whose
    mark is ["X"]: the human if the human holds ["X"], otherwise the
    computer.  The player that holds ["O"] is never the first. *)
Theorem first_player_holds_X (w : World) :
  exists (current human cpu : BasePlayer) (w' : World),
    main_setup w = (Ok (current, human, cpu), w') /\
    main 0 w = (Ok (AwaitingMove current), w') /\
    (forall n, main n w = play n current human cpu w') /\
    value current = "X" /\
    ((human = Player "X" /\ cpu = CPUPlayer "O" /\ current = human) \/
     (human = Player "O" /\ cpu = CPUPlayer "X" /\ current = cpu)) /\
    _board w' = new_board.
Proof.
  destruct (main_setup_players w)
    as (current & human & cpu & w' & Hsetup & Hwho & Hboard).
  exists current, human, cpu, w'.
  assert (Hmain : forall n, main n w = play n current human cpu w').
  { intros n. unfold main, mbind, M_bind. by rewrite Hsetup. }
  split; [done|]. split; [by rewrite Hmain|]. split; [done|].
  split; [|done].
  destruct Hwho as [(-> & -> & ->) | (-> & -> & ->)]; reflexivity.
Qed.

(** ** The human's move *)

(** C3 fails on the code. The [except] clause of [Player.move] prints and
    falls through to the check of the cell instead of asking again, and
    the check of the cell is outside the [try]:
    - a malformed first line leaves [row] and [col] unassigned, and the
      check raises [UnboundLocalError], although a good line follows;
    - a coordinate of 3 or more makes the check raise [IndexError],
      although a good line follows;
    - the line ["-1 -1"] is accepted, and the coordinate returned is
      [(-1, -1)], which is not in the range 0 to 2. *)
Theorem Player_move_escapes :
  fst (Player_move (initial_world ["abc"; "1 1"] zeros)) = Raise UnboundLocalError /\
  fst (Player_move (initial_world ["1"; "1 1"] zeros)) = Raise UnboundLocalError /\
  fst (Player_move (initial_world ["5 5"; "1 1"] zeros)) = Raise IndexError /\
  fst (Player_move (initial_world ["-1 -1"; "1 1"] zeros)) = Ok (-1, -1).
Proof. repeat split; reflexivity. Qed.

(** ** Sequences of placements *)

Lemma is_full_cells (b : Board) :
  is_full b = true <-> forall i j : nat, cell b i j <> Some " ".
Proof.
  unfold is_full. rewrite forallb_forall. split.
  - intros H i j Hcell. unfold cell in Hcell.
    destruct (b !! i) as [r|] eqn:Hr; simpl in Hcell; [|done].
    assert (Hin : In r b) by (apply list_elem_of_In; by eapply list_elem_of_lookup_2).
    specialize (H r Hin). rewrite forallb_forall in H.
    assert (Hin' : In " " r)
      by (apply list_elem_of_In; by eapply list_elem_of_lookup_2).
    specialize (H " " Hin'). done.
  - intros H r Hr. apply forallb_forall. intros spot Hspot.
    apply list_elem_of_In, list_elem_of_lookup in Hr as [i Hi].
    apply list_elem_of_In, list_elem_of_lookup in Hspot as [j Hj].
    destruct (String.eqb_spec spot " ") as [->|]; [|done].
    exfalso. apply (H i j). unfold cell. by rewrite Hi.
Qed.

Lemma mark_not_blank (value : string) : value ∈ PLAYERS_VALUES -> value <> " ".
Proof.
  unfold PLAYERS_VALUES. intros H ->.
  repeat (apply elem_of_cons in H as [H|H]; [discriminate|]).
  by apply elem_of_nil in H.
Qed.

(** Placements at distinct in-range coordinates that are all empty
    succeed, and leave empty exactly the cells that were empty and were
    not a target. *)
Lemma place_all_cells (moves : list (Z * Z * string)) (w : World) :
  wf_board (_board w) ->
  valid_moves moves ->
  NoDup (moves.*1) ->
  (forall row col, (row, col) ∈ moves.*1 ->
     cell (_board w) (Z.to_nat row) (Z.to_nat col) = Some " ") ->
  exists w' : World,
    place_all moves w = (Ok tt, w') /\
    wf_board (_board w') /\
    forall i j : nat,
      cell (_board w') i j = Some " " <->
      cell (_board w) i j = Some " " /\ (Z.of_nat i, Z.of_nat j) ∉ moves.*1.
Proof.
  revert w. induction moves as [|[[row col] value] moves IH];
    intros w Hwf Hvalid Hnodup Hempty.
  - exists w. split; [done|]. split; [done|].
    intros i j. simpl. split; [|tauto]. intros H. split; [done|].
    apply not_elem_of_nil.
  - simpl in Hnodup. apply NoDup_cons in Hnodup as [Hnotin Hnodup].
    destruct (Hvalid row col value) as (Hrow & Hcol & Hvalue);
      [apply elem_of_cons; by left|].
    assert (Hplace : set_cell_value row col value w
              = (Ok (row, col),
                 with_board (set_cell (_board w) (Z.to_nat row) (Z.to_nat col)
                               value) w)).
    { rewrite set_cell_value_eq, locate_in_range by done.
      rewrite (Hempty row col) by (simpl; apply elem_of_cons; by left).
      reflexivity. }
    set (w1 := with_board _ w) in Hplace.
    assert (Hcell1 : forall i j : nat,
              cell (_board w1) i j = Some " " <->
              cell (_board w) i j = Some " " /\
              (Z.of_nat i, Z.of_nat j) <> (row, col)).
    { intros i j. unfold w1. simpl. rewrite cell_set_cell.
      case_decide as Hij.
      - destruct Hij as [-> ->]. rewrite !Z2Nat.id by lia.
        rewrite (Hempty row col) by (simpl; apply elem_of_cons; by left).
        simpl. split; [|tauto]. intros [= ->].
        by apply mark_not_blank in Hvalue.
      - split; [|tauto]. intros H. split; [done|]. intros [= <- <-].
        rewrite !Nat2Z.id in Hij. tauto. }
    destruct (IH w1) as (w' & Hrest & Hwf' & Hcells).
    + by apply wf_set_cell.
    + intros r c v Hin. apply Hvalid. apply elem_of_cons. by right.
    + done.
    + intros r c Hin. apply Hcell1. split.
      * apply Hempty. simpl. apply elem_of_cons. by right.
      * assert (Hrc : 0 <= r /\ 0 <= c).
        { apply list_elem_of_fmap in Hin as ([[r' c'] v] & Heq & Hin).
          simpl in Heq. injection Heq as <- <-.
          destruct (Hvalid r c v) as (? & ? & ?); [|lia].
          apply elem_of_cons. by right. }
        rewrite !Z2Nat.id by lia. intros [= -> ->]. done.
    + exists w'. split; [|split; [done|]].
      * simpl. unfold mbind, M_bind. by rewrite Hplace.
      * intros i j. rewrite Hcells, Hcell1. simpl.
        rewrite not_elem_of_cons. tauto.
Qed.

Lemma NoDup_all_cells : NoDup all_cells.
Proof. apply (bool_decide_unpack _). by vm_compute. Qed.

Lemma cell_new_board (i j : nat) :
  cell new_board i j = Some " " <-> (i < 3)%nat /\ (j < 3)%nat.
Proof.
  split.
  - intros H. apply (cell_lt new_board i j wf_new_board). by eexists.
  - intros [Hi Hj].
    destruct i as [|[|[|i]]]; [| | |lia];
      (destruct j as [|[|[|j]]]; [| | |lia]); reflexivity.
Qed.

(** Distinct in-range coordinates: there are nine of them exactly when
    every coordinate of the board is among them. *)
Lemma nine_coordinates (coords : list (Z * Z)) :
  NoDup coords ->
  (forall p, p ∈ coords -> p ∈ all_cells) ->
  (length coords = 9%nat <-> forall p, p ∈ all_cells -> p ∈ coords).
Proof.
  intros Hnodup Hsub.
  pose proof (NoDup_submseteq _ _ Hnodup Hsub) as Hle.
  split.
  - intros Hlen p Hp.
    assert (Hperm : coords ≡ₚ all_cells).
    { apply submseteq_length_Permutation; [done|]. rewrite Hlen. simpl. lia. }
    by rewrite Hperm.
  - intros Hall.
    pose proof (NoDup_submseteq _ _ NoDup_all_cells Hall) as Hge.
    apply submseteq_length in Hle, Hge. simpl in Hle, Hge. lia.
Qed.

(** C6. From the new board, placements of marks at distinct in-range
    coordinates all succeed, and afterwards [is_full] is true exactly
    when there were nine of them; and [is_full] is true exactly when no
    cell is empty. *)
Theorem is_full_iff_nine_placements (moves : list (Z * Z * string)) (w : World) :
  _board w = new_board ->
  valid_moves moves ->
  NoDup (moves.*1) ->
  exists w' : World,
    place_all moves w = (Ok tt, w') /\
    (is_full (_board w') = true <-> length moves = 9%nat) /\
    (is_full (_board w') = true <->
     forall i j : nat, cell (_board w') i j <> Some " ").
Proof.
  intros Hnew Hvalid Hnodup.
  assert (Hsub : forall p, p ∈ moves.*1 -> p ∈ all_cells).
  { intros [row col] Hin. apply elem_of_all_cells.
    apply list_elem_of_fmap in Hin as ([[r c] v] & Heq & Hin).
    simpl in Heq. injection Heq as <- <-.
    destruct (Hvalid row col v Hin) as (? & ? & ?). lia. }
  destruct (place_all_cells moves w) as (w' & Hrun & Hwf & Hcells); try done.
  { by rewrite Hnew; apply wf_new_board. }
  { intros row col Hin. rewrite Hnew. apply cell_new_board.
    apply Hsub, elem_of_all_cells in Hin. lia. }
  exists w'. split; [done|]. split; [|apply is_full_cells].
  rewrite <- (length_fmap fst moves).
  rewrite (nine_coordinates _ Hnodup Hsub), is_full_cells.
  split.
  - intros Hfull [row col] Hp. apply elem_of_all_cells in Hp.
    destruct (decide ((row, col) ∈ moves.*1)) as [|Hnotin]; [done|].
    exfalso. apply (Hfull (Z.to_nat row) (Z.to_nat col)).
    apply Hcells. rewrite Hnew, !Z2Nat.id by lia. split; [|done].
    apply cell_new_board. lia.
  - intros Hall i j Hcell. apply Hcells in Hcell as [Hcell Hnotin].
    rewrite Hnew in Hcell. apply cell_new_board in Hcell.
    apply Hnotin, Hall, elem_of_all_cells. lia.
Qed.

Lemma valid_nine_moves : valid_moves nine_moves.
Proof.
  intros row col value Hin. unfold nine_moves in Hin.
  repeat (apply elem_of_cons in Hin as [Heq|Hin];
          [injection Heq as -> -> ->;
           (split; [lia|]; split; [lia|]);
           apply (bool_decide_unpack _); by vm_compute|]).
  by apply elem_of_nil in Hin.
Defined.

Lemma NoDup_nine_moves : NoDup (nine_moves.*1).
Proof. apply (bool_decide_unpack _). by vm_compute. Defined.

Lemma is_full_iff_nine_placements_witness :
  _board (initial_world [] zeros) = new_board /\
  valid_moves nine_moves /\
  NoDup (nine_moves.*1) /\
  exists w' : World,
    place_all nine_moves (initial_world [] zeros) = (Ok tt, w') /\
    (is_full (_board w') = true <-> length nine_moves = 9%nat) /\
    (is_full (_board w') = true <->
     forall i j : nat, cell (_board w') i j <> Some " ").
Proof.
  split; [reflexivity|]. split; [exact valid_nine_moves|].
  split; [exact NoDup_nine_moves|].
  exact (is_full_iff_nine_placements nine_moves (initial_world [] zeros)
           eq_refl valid_nine_moves NoDup_nine_moves).
Defined.

(** ** The moves of the two players, and the length of a game *)

Lemma read_move_board (line : string) (rowcol caught : option (Z * Z))
    (w w' : World) :
  read_move line rowcol w = (Ok caught, w') -> _board w' = _board w.
Proof.
  unfold read_move.
  destruct (parse_move line) as [rc|[]]; try (by intros [= _ <-]); done.
Qed.

(** When [Player.move] returns, the coordinate it returns denotes an
    empty cell of the board, which it has not changed. *)
Lemma Player_move_loop_target (lines : list string) (rowcol : option (Z * Z))
    (w w' : World) (row col : Z) :
  Player_move_loop lines rowcol w = (Ok (row, col), w') ->
  _board w' = _board w /\
  exists kr kc, locate (_board w) row col = Some (kr, kc) /\
                cell (_board w) kr kc = Some " ".
Proof.
  revert rowcol w. induction lines as [|line rest IH]; intros rowcol w; simpl.
  - done.
  - unfold mbind at 1. unfold M_bind, input_line.
    set (w0 := mkWorld _ _ _ _ _).
    step_bind.
    destruct (read_move line rowcol w0) as [[caught|e] w1] eqn:Hread; [|done].
    apply read_move_board in Hread. change (_board w0) with (_board w) in Hread.
    destruct caught as [[r c]|]; [|done].
    step_bind. rewrite is_cell_empty_eq, Hread.
    destruct (locate (_board w) r c) as [[kr kc]|] eqn:Hloc; [|done].
    destruct (cell (_board w) kr kc) as [spot|] eqn:Hcell; [|done].
    destruct (String.eqb_spec spot " ") as [->|Hne]; simpl.
    + intros [= <- <- <-]. split; [done|]. by exists kr, kc.
    + intros Hrec. apply IH in Hrec. simpl in Hrec. by rewrite Hread in Hrec.
Qed.

(** The same for either player, on a board of three rows of three
    cells. *)
Lemma move_target (p : BasePlayer) (w w' : World) (row col : Z) :
  wf_board (_board w) ->
  move p w = (Ok (row, col), w') ->
  _board w' = _board w /\
  exists kr kc, locate (_board w) row col = Some (kr, kc) /\
                cell (_board w) kr kc = Some " ".
Proof.
  intros Hwf. destruct p as [v|v]; simpl.
  - apply Player_move_loop_target.
  - unfold CPUPlayer_move, mbind, M_bind, get_board, lift.
    rewrite get_empty_spots_filter by done.
    set (spots := List.filter _ _).
    destruct spots as [|spot spots'] eqn:Hspots; [done|].
    destruct (random_choice_elem (spot :: spots') w) as ([r c] & Hin & ->); [done|].
    simpl. intros [= <- <- <-]. split; [done|].
    rewrite <- Hspots in Hin. apply elem_of_empty_cells in Hin.
    destruct Hin as (Hr & Hc & Hcell).
    exists (Z.to_nat r), (Z.to_nat c). split; [|done].
    by apply locate_in_range.
Qed.

(** So with the two players of the program the placement in the loop
    never fails: [CellIsNotEmptyError] is not raised by [turn]. *)
Lemma move_then_place (p : BasePlayer) (value : string) (w w' : World)
    (row col : Z) :
  wf_board (_board w) ->
  move p w = (Ok (row, col), w') ->
  exists kr kc,
    cell (_board w) kr kc = Some " " /\
    set_cell_value row col value w'
      = (Ok (row, col), with_board (set_cell (_board w) kr kc value) w').
Proof.
  intros Hwf Hmove.
  destruct (move_target p w w' row col Hwf Hmove)
    as (Hboard & kr & kc & Hloc & Hcell).
  exists kr, kc. split; [done|].
  by rewrite set_cell_value_eq, Hboard, Hloc, Hcell.
Qed.

Lemma count_blank_insert (r : list string) (k : nat) (value : string) :
  r !! k = Some " " -> value <> " " ->
  S (length (List.filter (fun spot => spot =? " ") (<[k:=value]> r)))
  = length (List.filter (fun spot => spot =? " ") r).
Proof.
  intros Hk Hvalue. revert k Hk. induction r as [|x r IH]; intros k Hk; [done|].
  destruct k as [|k]; simpl in *.
  - injection Hk as ->. destruct (String.eqb_spec value " "); [done|].
    simpl. lia.
  - specialize (IH k Hk). destruct (x =? " "); simpl; lia.
Qed.

Lemma count_mark_set_cell (b : Board) (kr kc : nat) (value : string) :
  cell b kr kc = Some " " -> value <> " " ->
  (count_mark (set_cell b kr kc value) " " + 1 = count_mark b " ")%nat.
Proof.
  unfold count_mark, set_cell, cell. intros Hcell Hvalue.
  revert kr Hcell. induction b as [|r b IH]; intros kr Hcell; [done|].
  destruct kr as [|kr]; simpl in *.
  - rewrite !List.filter_app, !length_app.
    pose proof (count_blank_insert r kc value Hcell Hvalue). lia.
  - rewrite !List.filter_app, !length_app. specialize (IH kr Hcell).
    unfold alter in IH. lia.
Qed.

Lemma is_full_count (b : Board) :
  is_full b = true <-> count_mark b " " = 0%nat.
Proof.
  unfold is_full, count_mark. induction b as [|r b IH]; simpl; [done|].
  rewrite List.filter_app, length_app, andb_true_iff, IH.
  assert (Hr : forallb (fun spot => negb (spot =? " ")) r = true <->
               length (List.filter (fun spot => spot =? " ") r) = 0%nat).
  { clear. induction r as [|x r IH]; simpl; [done|].
    destruct (x =? " "); simpl; [split; [done | lia] | done]. }
  rewrite Hr. lia.
Qed.

(** A pass through the loop that leaves the game going has filled one
    empty cell and has left at least one. *)
Lemma turn_awaiting (current human cpu next : BasePlayer) (w w' : World) :
  wf_board (_board w) ->
  value current <> " " ->
  turn current human cpu w = (Ok (AwaitingMove next), w') ->
  wf_board (_board w') /\
  (count_mark (_board w') " " + 1 = count_mark (_board w) " ")%nat /\
  (0 < count_mark (_board w') " ")%nat /\
  (next = human \/ next = cpu).
Proof.
  intros Hwf Hvalue. unfold turn, loop_body.
  step_bind.
  destruct (move current w) as [[[row col]|e] w1] eqn:Hmove; [|done].
  destruct (move_then_place current (value current) w w1 row col Hwf Hmove)
    as (kr & kc & Hcell & Hplace).
  unfold place_and_judge. step_bind. rewrite Hplace.
  set (b' := set_cell (_board w) kr kc (value current)).
  unfold mbind, M_bind, get_board, print, lift, with_board. simpl.
  destruct (check_winner b' (value current)) as [[|]|e]; try done.
  destruct (is_full b') eqn:Hfull; [done|].
  intros [= <- <-]. simpl. split; [by apply wf_set_cell|].
  split; [by apply count_mark_set_cell|]. split.
  - destruct (count_mark b' " ") eqn:Hcount; [|lia].
    apply is_full_count in Hcount. congruence.
  - destruct (is_CPUPlayer current); tauto.
Qed.

(** As many passes as there are empty cells always bring the loop to its
    end: it is left with a win or a draw, or an error is raised. *)
Lemma play_ends (n : nat) (current human cpu : BasePlayer) (w : World) :
  wf_board (_board w) ->
  value human <> " " -> value cpu <> " " ->
  current = human \/ current = cpu ->
  (1 <= n)%nat -> (count_mark (_board w) " " <= n)%nat ->
  forall next w', play n current human cpu w <> (Ok (AwaitingMove next), w').
Proof.
  revert current w. induction n as [|n IH];
    intros current w Hwf Hhuman Hcpu Hcurrent Hn Hcount next w'; [lia|].
  unfold play. simpl. unfold mbind, M_bind.
  fold (turn current human cpu).
  destruct (turn current human cpu w) as [[[p| |]|e] w1] eqn:Hturn; try done.
  apply turn_awaiting in Hturn as (Hwf1 & Hdec & Hpos & Hp);
    [|done|by destruct Hcurrent as [-> | ->]].
  apply (IH p w1); try done; lia.
Qed.

(** Nine passes are enough for [main]. *)
Lemma main_ends (w : World) (next : BasePlayer) (w' : World) :
  main 9 w <> (Ok (AwaitingMove next), w').
Proof.
  destruct (main_setup_players w)
    as (current & human & cpu & w1 & Hsetup & Hwho & Hboard).
  unfold main, mbind, M_bind. rewrite Hsetup.
  apply play_ends.
  - rewrite Hboard. apply wf_new_board.
  - by destruct Hwho as [(-> & _) | (-> & _)].
  - by destruct Hwho as [(_ & -> & _) | (_ & -> & _)].
  - destruct Hwho as [(_ & _ & ->) | (_ & _ & ->)]; tauto.
  - lia.
  - rewrite Hboard. vm_compute. lia.
Qed.

(** * Further properties of the board *)

(** ** Placement on an empty cell *)

(** X1. A placement at an in-range coordinate whose cell is empty
    succeeds and returns the coordinate; afterwards that cell holds the
    value, every other cell is as before, the board still has three rows
    of three cells, and nothing was read or printed. *)
Theorem set_cell_value_empty_cell (w : World) (row col : Z) (value : string) :
  wf_board (_board w) ->
  0 <= row <= 2 -> 0 <= col <= 2 ->
  cell (_board w) (Z.to_nat row) (Z.to_nat col) = Some " " ->
  exists w' : World,
    set_cell_value row col value w = (Ok (row, col), w') /\
    wf_board (_board w') /\
    stdin w' = stdin w /\ stdout w' = stdout w /\
    forall i j : nat,
      cell (_board w') i j =
      if decide (i = Z.to_nat row /\ j = Z.to_nat col) then Some value
      else cell (_board w) i j.
Proof.
  intros Hwf Hrow Hcol Hcell.
  exists (with_board (set_cell (_board w) (Z.to_nat row) (Z.to_nat col) value) w).
  split; [by rewrite set_cell_value_eq, locate_in_range, Hcell|].
  split; [by apply wf_set_cell|]. split; [done|]. split; [done|].
  intros i j. simpl. rewrite cell_set_cell. case_decide as Hij; [|done].
  destruct Hij as [-> ->]. by rewrite Hcell.
Qed.

Lemma set_cell_value_empty_cell_witness :
  wf_board (_board world_centre_x) /\
  cell (_board world_centre_x) (Z.to_nat 0) (Z.to_nat 2) = Some " " /\
  exists w' : World,
    set_cell_value 0 2 "O" world_centre_x = (Ok (0, 2), w') /\
    wf_board (_board w') /\
    stdin w' = stdin world_centre_x /\ stdout w' = stdout world_centre_x /\
    forall i j : nat,
      cell (_board w') i j =
      if decide (i = Z.to_nat 0 /\ j = Z.to_nat 2) then Some "O"
      else cell (_board world_centre_x) i j.
Proof.
  assert (Hwf : wf_board (_board world_centre_x))
    by (split; [reflexivity | repeat constructor]).
  split; [exact Hwf|]. split; [reflexivity|].
  apply (set_cell_value_empty_cell world_centre_x 0 2 "O" Hwf);
    [lia | lia | reflexivity].
Defined.

Lemma set_cell_value_from_the_end_witness :
  wf_board (_board world_centre_x) /\
  snd (set_cell_value (-1) (-3) "O" world_centre_x)
    = snd (set_cell_value (-1 mod 3) (-3 mod 3) "O" world_centre_x) /\
  (fst (set_cell_value (-1) (-3) "O" world_centre_x) = Ok (-1, -3) <->
   fst (set_cell_value (-1 mod 3) (-3 mod 3) "O" world_centre_x)
     = Ok (-1 mod 3, -3 mod 3)).
Proof.
  assert (Hwf : wf_board (_board world_centre_x))
    by (split; [reflexivity | repeat constructor]).
  split; [exact Hwf|].
  apply (set_cell_value_from_the_end world_centre_x (-1) (-3) "O" Hwf); lia.
Defined.

(** ** The check of a cell *)

(** X3. [is_cell_empty] never changes the board.  At an in-range
    coordinate it returns whether the cell is blank, and prints the
    message exactly when it is not; with a row or column outside
    [-3, 2] it raises [IndexError] and prints nothing. *)
Theorem is_cell_empty_behaviour (w : World) (row col : Z) :
  wf_board (_board w) ->
  _board (snd (is_cell_empty row col w)) = _board w /\
  (0 <= row <= 2 -> 0 <= col <= 2 ->
   exists spot : string,
     cell (_board w) (Z.to_nat row) (Z.to_nat col) = Some spot /\
     fst (is_cell_empty row col w) = Ok (spot =? " ") /\
     stdout (snd (is_cell_empty row col w))
       = if spot =? " " then stdout w else stdout w ++ [occupied_message]) /\
  (~ (-3 <= row <= 2 /\ -3 <= col <= 2) ->
   is_cell_empty row col w = (Raise IndexError, w)).
Proof.
  intros Hwf. rewrite is_cell_empty_eq. split; [|split].
  - destruct (locate (_board w) row col) as [[kr kc]|]; [|done].
    destruct (cell (_board w) kr kc) as [spot|]; [|done].
    by destruct (spot =? " ").
  - intros Hrow Hcol. rewrite locate_in_range by done.
    destruct (wf_board_cell (_board w) (Z.to_nat row) (Z.to_nat col))
      as [spot Hspot]; [done | lia | lia |].
    exists spot. rewrite Hspot. split; [done|]. by destruct (spot =? " ").
  - intros Hout. by rewrite locate_outside.
Qed.

Lemma is_cell_empty_behaviour_witness :
  wf_board (_board world_centre_x) /\
  _board (snd (is_cell_empty 1 1 world_centre_x)) = _board world_centre_x /\
  (0 <= 1 <= 2 -> 0 <= 1 <= 2 ->
   exists spot : string,
     cell (_board world_centre_x) (Z.to_nat 1) (Z.to_nat 1) = Some spot /\
     fst (is_cell_empty 1 1 world_centre_x) = Ok (spot =? " ") /\
     stdout (snd (is_cell_empty 1 1 world_centre_x))
       = if spot =? " " then stdout world_centre_x
         else stdout world_centre_x ++ [occupied_message]) /\
  (~ (-3 <= 1 <= 2 /\ -3 <= 1 <= 2) ->
   is_cell_empty 1 1 world_centre_x = (Raise IndexError, world_centre_x)).
Proof.
  assert (Hwf : wf_board (_board world_centre_x))
    by (split; [reflexivity | repeat constructor]).
  split; [exact Hwf | exact (is_cell_empty_behaviour world_centre_x 1 1 Hwf)].
Defined.

(** ** Placement, then another query *)

Lemma locate_bounds (b : Board) (row col : Z) (kr kc : nat) :
  wf_board b -> locate b row col = Some (kr, kc) ->
  -3 <= row <= 2 /\ -3 <= col <= 2.
Proof.
  intros Hwf Hloc.
  destruct (decide (-3 <= row <= 2 /\ -3 <= col <= 2)) as [|Hout]; [done|].
  by rewrite locate_outside in Hloc.
Qed.

Lemma locate_set_cell (b : Board) (row col : Z) (kr kc : nat) (value : string) :
  wf_board b ->
  locate (set_cell b kr kc value) row col = locate b row col.
Proof.
  intros Hwf.
  destruct (decide (-3 <= row <= 2 /\ -3 <= col <= 2)) as [[Hrow Hcol]|Hout].
  - by rewrite !locate_wf by (done || by apply wf_set_cell).
  - by rewrite !locate_outside by (done || by apply wf_set_cell).
Qed.

(** X4. Once a placement of a mark has succeeded, a placement at the same
    coordinate (given in the same or another way that Python indexing
    allows) fails with [CellIsNotEmptyError], whatever value it brings. *)
Theorem set_cell_value_twice (w w1 : World) (row col : Z) (rc : Z * Z)
    (value value' : string) :
  wf_board (_board w) ->
  value <> " " ->
  set_cell_value row col value w = (Ok rc, w1) ->
  set_cell_value row col value' w1
    = (Raise CellIsNotEmptyError, snd (print occupied_message w1)) /\
  set_cell_value (row mod 3) (col mod 3) value' w1
    = (Raise CellIsNotEmptyError, snd (print occupied_message w1)).
Proof.
  intros Hwf Hvalue. rewrite set_cell_value_eq.
  destruct (locate (_board w) row col) as [[kr kc]|] eqn:Hloc; [|done].
  destruct (cell (_board w) kr kc) as [spot|] eqn:Hcell; [|done].
  destruct (spot =? " "); [|done]. intros [= <- <-].
  destruct (locate_bounds _ _ _ _ _ Hwf Hloc) as [Hrow Hcol].
  pose proof (Z.mod_pos_bound row 3). pose proof (Z.mod_pos_bound col 3).
  assert (Hloc' : locate (_board w) (row mod 3) (col mod 3) = Some (kr, kc)).
  { rewrite locate_wf in Hloc by done.
    rewrite locate_wf, !Z.mod_mod by (done || lia). done. }
  rewrite !set_cell_value_eq. simpl.
  rewrite !locate_set_cell, Hloc, Hloc', cell_set_cell by done.
  rewrite decide_True, Hcell by done. simpl.
  by destruct (String.eqb_spec value " ").
Qed.

Lemma set_cell_value_twice_witness :
  wf_board (_board (initial_world [] zeros)) /\
  "X" <> " " /\
  set_cell_value (-1) 0 "X" (initial_world [] zeros)
    = (Ok (-1, 0),
       mkWorld [[" "; " "; " "]; [" "; " "; " "]; ["X"; " "; " "]] [] [] zeros 0) /\
  set_cell_value (-1) 0 "O"
      (mkWorld [[" "; " "; " "]; [" "; " "; " "]; ["X"; " "; " "]] [] [] zeros 0)
    = (Raise CellIsNotEmptyError,
       snd (print occupied_message
              (mkWorld [[" "; " "; " "]; [" "; " "; " "]; ["X"; " "; " "]]
                 [] [] zeros 0))) /\
  set_cell_value (-1 mod 3) (0 mod 3) "O"
      (mkWorld [[" "; " "; " "]; [" "; " "; " "]; ["X"; " "; " "]] [] [] zeros 0)
    = (Raise CellIsNotEmptyError,
       snd (print occupied_message
              (mkWorld [[" "; " "; " "]; [" "; " "; " "]; ["X"; " "; " "]]
                 [] [] zeros 0))).
Proof.
  assert (Hwf : wf_board (_board (initial_world [] zeros)))
    by (split; [reflexivity | repeat constructor]).
  assert (Hx : "X" <> " ") by discriminate.
  split; [exact Hwf|]. split; [exact Hx|]. split; [reflexivity|].
  exact (set_cell_value_twice (initial_world [] zeros) _ (-1) 0 (-1, 0) "X" "O"
           Hwf Hx eq_refl).
Defined.

Lemma list_filter_remove {A} `{EqDecision A} (f f' : A -> bool) (q : A)
    (l : list A) :
  (forall p, p ∈ l -> f' p = f p && bool_decide (p <> q)) ->
  List.filter f' l = filter (fun p => p <> q) (List.filter f l).
Proof.
  induction l as [|x l IH]; intros Hf; [done|]. simpl.
  rewrite (Hf x) by (apply elem_of_cons; by left).
  rewrite IH by (intros p Hp; apply Hf, elem_of_cons; by right).
  destruct (f x); simpl; [|done].
  rewrite filter_cons. case_bool_decide; case_decide; done.
Qed.

(** X5. After a mark has been placed at an in-range coordinate,
    [get_empty_spots] returns the list it returned before without that
    coordinate, the others in the same order. *)
Theorem get_empty_spots_after_placement (w w1 : World) (row col : Z)
    (value : string) :
  wf_board (_board w) ->
  0 <= row <= 2 -> 0 <= col <= 2 ->
  value <> " " ->
  set_cell_value row col value w = (Ok (row, col), w1) ->
  exists spots : list (Z * Z),
    get_empty_spots (_board w) = Ok spots /\
    (row, col) ∈ spots /\
    get_empty_spots (_board w1) = Ok (filter (fun p => p <> (row, col)) spots).
Proof.
  intros Hwf Hrow Hcol Hvalue. rewrite set_cell_value_eq, locate_in_range by done.
  destruct (cell (_board w) (Z.to_nat row) (Z.to_nat col)) as [spot|] eqn:Hcell;
    [|done].
  destruct (String.eqb_spec spot " ") as [->|]; [|done]. intros [= <-].
  exists (List.filter (is_empty_at (_board w)) all_cells).
  split; [by apply get_empty_spots_filter|].
  split; [by apply elem_of_empty_cells|].
  unfold with_board. cbn [_board].
  rewrite get_empty_spots_filter by (by apply wf_set_cell). f_equal.
  apply list_filter_remove. intros [i j] Hij. apply elem_of_all_cells in Hij.
  unfold is_empty_at, cell_eqb. simpl. rewrite cell_set_cell.
  case_decide as Hdec.
  - destruct Hdec as [Hi Hj].
    assert (i = row) as -> by lia. assert (j = col) as -> by lia.
    rewrite Hcell. simpl. rewrite bool_decide_false by tauto.
    by destruct (String.eqb_spec value " ").
  - rewrite bool_decide_true; [by rewrite andb_true_r|].
    intros [= -> ->]. tauto.
Qed.

Lemma get_empty_spots_after_placement_witness :
  wf_board (_board world_centre_x) /\
  "O" <> " " /\
  set_cell_value 0 2 "O" world_centre_x
    = (Ok (0, 2), snd (set_cell_value 0 2 "O" world_centre_x)) /\
  exists spots : list (Z * Z),
    get_empty_spots (_board world_centre_x) = Ok spots /\
    (0, 2) ∈ spots /\
    get_empty_spots (_board (snd (set_cell_value 0 2 "O" world_centre_x)))
      = Ok (filter (fun p => p <> (0, 2)) spots).
Proof.
  assert (Hwf : wf_board (_board world_centre_x))
    by (split; [reflexivity | repeat constructor]).
  assert (Ho : "O" <> " ") by discriminate.
  assert (Hrow : 0 <= 0 <= 2) by lia.
  assert (Hcol : 0 <= 2 <= 2) by lia.
  assert (Hplace : set_cell_value 0 2 "O" world_centre_x
            = (Ok (0, 2), snd (set_cell_value 0 2 "O" world_centre_x)))
    by reflexivity.
  split; [exact Hwf|]. split; [exact Ho|]. split; [exact Hplace|].
  exact (get_empty_spots_after_placement world_centre_x
           (snd (set_cell_value 0 2 "O" world_centre_x)) 0 2 "O"
           Hwf Hrow Hcol Ho Hplace).
Defined.

(** * Further properties of the players *)

(** ** The computer's move at the edges *)

Lemma full_board_no_spots (b : Board) :
  is_full b = true -> List.filter (is_empty_at b) all_cells = [].
Proof.
  intros Hfull. destruct (List.filter _ _) as [|[i j] l] eqn:Hl; [done|].
  assert (Hin : (i, j) ∈ List.filter (is_empty_at b) all_cells)
    by (rewrite Hl; apply elem_of_cons; by left).
  apply elem_of_empty_cells in Hin as (_ & _ & Hcell).
  rewrite is_full_cells in Hfull. by destruct (Hfull _ _ Hcell).
Qed.

(** X6. On a full board [CPUPlayer.move] raises [IndexError], the error of
    [random.choice] on an empty list; nothing is printed and the board
    and the random source are as before. *)
Theorem CPUPlayer_move_full_board (w : World) :
  wf_board (_board w) ->
  is_full (_board w) = true ->
  CPUPlayer_move w = (Raise IndexError, w).
Proof.
  intros Hwf Hfull. unfold CPUPlayer_move, mbind, M_bind, get_board, lift.
  by rewrite get_empty_spots_filter, full_board_no_spots.
Qed.

Lemma CPUPlayer_move_full_board_witness :
  wf_board board_full /\
  is_full board_full = true /\
  CPUPlayer_move (mkWorld board_full [] [] zeros 0)
    = (Raise IndexError, mkWorld board_full [] [] zeros 0).
Proof.
  assert (Hwf : wf_board board_full)
    by (split; [reflexivity | repeat constructor]).
  split; [exact Hwf|]. split; [reflexivity|].
  exact (CPUPlayer_move_full_board (mkWorld board_full [] [] zeros 0)
           Hwf eq_refl).
Defined.

(** X7. Every empty cell can be the computer's move: for each in-range
    coordinate of an empty cell there is a random source with which
    [CPUPlayer.move] returns that coordinate. *)
Theorem CPUPlayer_move_any_empty_cell (w : World) (row col : Z) :
  wf_board (_board w) ->
  0 <= row <= 2 -> 0 <= col <= 2 ->
  cell (_board w) (Z.to_nat row) (Z.to_nat col) = Some " " ->
  exists source : nat -> nat,
    fst (CPUPlayer_move (with_draws source w)) = Ok (row, col).
Proof.
  intros Hwf Hrow Hcol Hcell.
  set (spots := List.filter (is_empty_at (_board w)) all_cells).
  assert (Hin : (row, col) ∈ spots) by (by apply elem_of_empty_cells).
  apply list_elem_of_lookup in Hin as [k Hk].
  pose proof (lookup_lt_Some _ _ _ Hk) as Hlt.
  exists (fun _ => k).
  unfold CPUPlayer_move, mbind, M_bind, get_board, lift, with_draws.
  cbn [_board]. rewrite get_empty_spots_filter by done. fold spots.
  unfold random_choice. destruct spots as [|spot spots']; [done|].
  unfold mbind, M_bind, randbelow. cbn [draws drawn].
  rewrite Nat.mod_small by done. by rewrite Hk.
Qed.

Lemma CPUPlayer_move_any_empty_cell_witness :
  wf_board (_board world_centre_x) /\
  cell (_board world_centre_x) (Z.to_nat 2) (Z.to_nat 0) = Some " " /\
  exists source : nat -> nat,
    fst (CPUPlayer_move (with_draws source world_centre_x)) = Ok (2, 0).
Proof.
  assert (Hwf : wf_board (_board world_centre_x))
    by (split; [reflexivity | repeat constructor]).
  split; [exact Hwf|]. split; [reflexivity|].
  apply (CPUPlayer_move_any_empty_cell world_centre_x 2 0 Hwf);
    [lia | lia | reflexivity].
Defined.

(** ** The human's move, line by line *)

Lemma match_underscore {T} (c : ascii) (x y : T) :
  match c with "_"%char => x | _ => y end = if Ascii.eqb c "_" then x else y.
Proof. destruct c as [[] [] [] [] [] [] [] []]; reflexivity. Qed.

Lemma py_int_error (s : string) (e : exn) : py_int s = Raise e -> e = ValueError.
Proof.
  unfold py_int.
  destruct (match s with
            | String "-" rest => (true, rest)
            | String "+" rest => (false, rest)
            | _ => (false, s)
            end) as [negative body].
  destruct body as [|c body']; [by intros [= <-]|].
  rewrite match_underscore.
  destruct (Ascii.eqb c "_"); [by intros [= <-]|].
  destruct (int_digits _ _ _ _) as [[n k]|]; [|by intros [= <-]].
  destruct (Nat.ltb 4300 k); [by intros [= <-] | done].
Qed.

Lemma parse_move_error (line : string) (e : exn) :
  parse_move line = Raise e -> e = ValueError.
Proof.
  unfold parse_move. destruct (split line) as [|a [|b rest]].
  - by intros [= <-].
  - unfold mbind, result_bind.
    destruct (py_int a) eqn:Ha; intros [= <-]; [done | by eapply py_int_error].
  - unfold mbind, result_bind.
    destruct (py_int a) eqn:Ha; [|intros [= <-]; by eapply py_int_error].
    destruct (py_int b) eqn:Hb; [|intros [= <-]; by eapply py_int_error].
    destruct rest as [|c rest]; [done|].
    destruct (py_int c) eqn:Hc; intros [= <-]; [done | by eapply py_int_error].
Qed.

Lemma is_cell_empty_cell_at (rc : Z * Z) (w : World) :
  is_cell_empty rc.1 rc.2 w =
  match cell_at (_board w) rc with
  | Some spot =>
      if spot =? " " then (Ok true, w)
      else (Ok false, printed occupied_message w)
  | None => (Raise IndexError, w)
  end.
Proof.
  rewrite is_cell_empty_eq. unfold cell_at.
  destruct (locate (_board w) rc.1 rc.2) as [[kr kc]|]; [|done].
  by destruct (cell (_board w) kr kc).
Qed.

(** One pass through the loop of [Player.move]. *)
Lemma Player_move_loop_cons (line : string) (rest : list string)
    (rowcol : option (Z * Z)) (w : World) :
  Player_move_loop (line :: rest) rowcol w =
  let w0 := prompted rest w in
  let caught :=
    match parse_move line with Ok rc => Some rc | Raise _ => rowcol end in
  let w1 :=
    match parse_move line with
    | Ok _ => w0
    | Raise _ => printed invalid_message w0
    end in
  match caught with
  | None => (Raise UnboundLocalError, w1)
  | Some rc =>
      match cell_at (_board w) rc with
      | Some spot =>
          if spot =? " " then (Ok rc, w1)
          else Player_move_loop rest (Some rc) (printed occupied_message w1)
      | None => (Raise IndexError, w1)
      end
  end.
Proof.
  simpl. step_bind. unfold input_line. fold (prompted rest w).
  step_bind. unfold read_move.
  destruct (parse_move line) as [[row col]|e] eqn:Hparse.
  - simpl. step_bind.
    rewrite (is_cell_empty_cell_at (row, col)). simpl.
    destruct (cell_at (_board w) (row, col)) as [spot|]; [|done].
    by destruct (spot =? " ").
  - apply parse_move_error in Hparse as ->. simpl.
    fold (printed invalid_message (prompted rest w)).
    destruct rowcol as [[row col]|]; [|done]. step_bind.
    rewrite (is_cell_empty_cell_at (row, col)). simpl.
    destruct (cell_at (_board w) (row, col)) as [spot|]; [|done].
    by destruct (spot =? " ").
Qed.

(** ** Lines that give a coordinate, and lines with a letter *)

Lemma int_digits_numeral (d : Decimal.uint) (acc : Z) (n : nat) :
  int_digits (NilEmpty.string_of_uint d) acc n false
  = Some (uint_value d acc,
          (n + String.length (NilEmpty.string_of_uint d))%nat).
Proof.
  revert acc n. induction d as [|d IH|d IH|d IH|d IH|d IH|d IH|d IH|d IH|d IH|d IH];
    intros acc n; simpl; [by rewrite Nat.add_0_r|..];
    rewrite IH; by rewrite Nat.add_succ_r.
Qed.

Lemma uint_value_pos (d : Decimal.uint) (p : positive) :
  uint_value d (Z.pos p) = Z.pos (Pos.of_uint_acc d p).
Proof.
  revert p. induction d as [|d IH|d IH|d IH|d IH|d IH|d IH|d IH|d IH|d IH|d IH];
    intros p; simpl; [done|..];
    rewrite <- IH; f_equal; lia.
Qed.

Lemma uint_value_0 (d : Decimal.uint) :
  uint_value d 0 = Z.of_N (Pos.of_uint d).
Proof.
  induction d as [|d IH|d IH|d IH|d IH|d IH|d IH|d IH|d IH|d IH|d IH];
    simpl; [done | done |..]; apply uint_value_pos.
Qed.

(** The numeral of a natural number starts with a digit. *)
Lemma numeral_head (d : Decimal.uint) :
  exists (c : ascii) (s : string) (k : Z),
    NilZero.string_of_uint d = String c s /\ digit_of c = Some k /\
    int_digits (String c s) 0 0 false
    = Some (uint_value d 0, String.length (String c s)).
Proof.
  destruct d as [|d|d|d|d|d|d|d|d|d|d];
    [by exists "0"%char, "", 0|..];
    match goal with
    | |- context [NilZero.string_of_uint ?x] =>
        pose proof (int_digits_numeral x 0 0) as H
    end;
    eexists _, _, _; (split; [reflexivity|]); (split; [reflexivity|]);
    exact H.
Qed.

(** [int] of a token that starts with a digit, and of one that starts
    with a minus sign and a digit. *)
Lemma py_int_unsigned (c : ascii) (s : string) (k : Z) :
  digit_of c = Some k ->
  py_int (String c s) =
  match int_digits (String c s) 0 0 false with
  | Some (n, len) => if Nat.ltb 4300 len then Raise ValueError else Ok n
  | None => Raise ValueError
  end.
Proof.
  destruct c as [[] [] [] [] [] [] [] []]; try discriminate; intros _; reflexivity.
Qed.

Lemma py_int_negative (c : ascii) (s : string) (k : Z) :
  digit_of c = Some k ->
  py_int (String "-" (String c s)) =
  match int_digits (String c s) 0 0 false with
  | Some (n, len) => if Nat.ltb 4300 len then Raise ValueError else Ok (- n)
  | None => Raise ValueError
  end.
Proof.
  destruct c as [[] [] [] [] [] [] [] []]; try discriminate; intros _; reflexivity.
Qed.

(** Reading back a short numeral gives the number. *)
Lemma py_int_int_str (z : Z) : short z -> py_int (int_str z) = Ok z.
Proof.
  unfold short. destruct z as [|p|p]; intros Hlen; [done|..].
  - change (int_str (Z.pos p))
      with (NilZero.string_of_uint (Pos.to_uint p)) in *.
    destruct (numeral_head (Pos.to_uint p)) as (c & s & k & Hs & Hc & Hd).
    rewrite Hs in *. rewrite (py_int_unsigned c s k Hc), Hd.
    destruct (Nat.ltb_spec 4300 (String.length (String c s))) as [H|_]; [lia|].
    by rewrite uint_value_0, DecimalPos.Unsigned.of_to.
  - change (int_str (Z.neg p))
      with (String "-" (NilZero.string_of_uint (Pos.to_uint p))) in *.
    destruct (numeral_head (Pos.to_uint p)) as (c & s & k & Hs & Hc & Hd).
    rewrite Hs in *. rewrite (py_int_negative c s k Hc), Hd.
    destruct (Nat.ltb_spec 4300 (String.length (String c s))) as [H|_];
      [simpl in H, Hlen; lia|].
    by rewrite uint_value_0, DecimalPos.Unsigned.of_to.
Qed.

Lemma append_cons (c : ascii) (s t : string) :
  String c s +:+ t = String c (s +:+ t).
Proof. reflexivity. Qed.

Lemma append_nil_left (s : string) : "" +:+ s = s.
Proof. reflexivity. Qed.

Lemma append_nil_right (s : string) : s +:+ "" = s.
Proof. induction s as [|c s IH]; [done|]. by rewrite append_cons, IH. Qed.

Lemma append_one_char (tok : string) (c : ascii) (s : string) :
  (tok +:+ String c "") +:+ s = tok +:+ String c s.
Proof.
  induction tok as [|c' tok IH]; [done|]. by rewrite !append_cons, IH.
Qed.

Lemma any_char_append (f : ascii -> bool) (s t : string) :
  any_char f (s +:+ t) = any_char f s || any_char f t.
Proof.
  induction s as [|c s IH]; [done|].
  rewrite append_cons. simpl. by rewrite IH, orb_assoc.
Qed.

(** A stretch of the line without white space goes into one token. *)
Lemma split_from_token (s rest tok : string) :
  any_char is_space s = false ->
  split_from (s +:+ rest) tok = split_from rest (tok +:+ s).
Proof.
  revert tok. induction s as [|c s IH]; intros tok Hs.
  - by rewrite append_nil_left, append_nil_right.
  - simpl in Hs. apply orb_false_iff in Hs as [Hc Hs].
    rewrite append_cons. simpl. rewrite Hc, IH by done.
    by rewrite append_one_char.
Qed.

Lemma split_two (a b : string) :
  a <> "" -> b <> "" ->
  any_char is_space a = false -> any_char is_space b = false ->
  split (a +:+ " " +:+ b) = [a; b].
Proof.
  intros Ha Hb Hsa Hsb. unfold split. rewrite split_from_token by done.
  rewrite append_nil_left, append_cons, append_nil_left. simpl.
  destruct a as [|c a]; [done|]. f_equal.
  replace (split_from b "") with (split_from (b +:+ "") "")
    by (by rewrite append_nil_right).
  rewrite split_from_token, append_nil_left by done. simpl. by destruct b.
Qed.

Lemma numeral_token (z : Z) :
  int_str z <> "" /\ any_char is_space (int_str z) = false.
Proof.
  assert (Hd : forall d, any_char is_space (NilEmpty.string_of_uint d) = false)
    by (induction d; simpl; done).
  assert (Hz : forall d, NilZero.string_of_uint d <> "" /\
                         any_char is_space (NilZero.string_of_uint d) = false).
  { intros d. split; [by destruct d|]. destruct d; try apply Hd. done. }
  unfold int_str. destruct (Z.to_int z) as [d|d]; simpl.
  - apply Hz.
  - split; [done|]. apply Hz.
Qed.

(** Reading the line of a coordinate gives the coordinate. *)
Lemma parse_move_move_line (row col : Z) :
  short row -> short col -> parse_move (move_line row col) = Ok (row, col).
Proof.
  intros Hrow Hcol. unfold parse_move, move_line.
  destruct (numeral_token row) as [Hr1 Hr2].
  destruct (numeral_token col) as [Hc1 Hc2].
  rewrite split_two by done. unfold mbind, result_bind.
  by rewrite !py_int_int_str.
Qed.

Lemma letter_not_numeric (c : ascii) :
  is_letter c = true ->
  is_space c = false /\ Ascii.eqb c "_" = false /\ digit_of c = None /\
  Ascii.eqb c "-" = false /\ Ascii.eqb c "+" = false.
Proof.
  destruct c as [[] [] [] [] [] [] [] []]; try discriminate; by intros _.
Qed.

Lemma int_digits_no_letter (s : string) (acc : Z) (n : nat) (p : bool)
    (r : Z * nat) :
  int_digits s acc n p = Some r -> any_char is_letter s = false.
Proof.
  revert acc n p. induction s as [|c s IH]; intros acc n p; simpl; [done|].
  destruct (is_letter c) eqn:Hc.
  - apply letter_not_numeric in Hc as (_ & -> & -> & _). done.
  - simpl. destruct (Ascii.eqb c "_").
    + destruct p; [done | apply IH].
    + destruct (digit_of c); [apply IH | done].
Qed.

Lemma sign_cases (s : string) :
  match s with
  | String "-" rest => (true, rest)
  | String "+" rest => (false, rest)
  | _ => (false, s)
  end = (false, s) \/
  exists rest,
    (s = String "-" rest \/ s = String "+" rest) /\
    exists negative,
      match s with
      | String "-" rest => (true, rest)
      | String "+" rest => (false, rest)
      | _ => (false, s)
      end = (negative, rest).
Proof.
  destruct s as [|c s]; [by left|].
  destruct c as [[] [] [] [] [] [] [] []];
    first [by left
          | right; exists s; split; [by left | by eexists]
          | right; exists s; split; [by right | by eexists]].
Qed.

Lemma py_int_no_letter (s : string) (n : Z) :
  py_int s = Ok n -> has_letter s = false.
Proof.
  unfold py_int, has_letter.
  assert (Hbody : forall negative body,
            match body with
            | EmptyString => Raise ValueError
            | String "_" _ => Raise ValueError
            | _ =>
                match int_digits body 0 0 false with
                | Some (n, k) =>
                    if Nat.ltb 4300 k then Raise ValueError
                    else Ok (if negative : bool then - n else n)
                | None => Raise ValueError
                end
            end = Ok n -> any_char is_letter body = false).
  { intros negative [|c body]; [done|]. rewrite match_underscore.
    destruct (Ascii.eqb c "_"); [done|].
    destruct (int_digits _ _ _ _) as [r|] eqn:Hd; [|done].
    intros _. by eapply int_digits_no_letter. }
  destruct (sign_cases s) as [-> | (rest & Hs & negative & ->)].
  - apply (Hbody false).
  - intros H. apply (Hbody negative) in H. by destruct Hs as [-> | ->].
Qed.

(** The letters of a line are the letters of its tokens. *)
Lemma split_from_letters (s tok : string) :
  existsb has_letter (split_from s tok) = has_letter tok || has_letter s.
Proof.
  unfold has_letter. revert tok. induction s as [|c s IH]; intros tok; simpl.
  - destruct tok; simpl; [done|]. by rewrite !orb_false_r.
  - destruct (is_space c) eqn:Hc.
    + assert (is_letter c = false) as ->.
      { destruct (is_letter c) eqn:Hl; [|done].
        apply letter_not_numeric in Hl as [Hl _]. congruence. }
      destruct tok; simpl; by rewrite IH.
    + rewrite IH, any_char_append. simpl. by rewrite orb_false_r, orb_assoc.
Qed.

Lemma parse_move_no_letter (line : string) (rc : Z * Z) :
  parse_move line = Ok rc -> has_letter line = false.
Proof.
  unfold parse_move. pose proof (split_from_letters line "") as Hsplit.
  fold (split line) in Hsplit. simpl in Hsplit.
  destruct (split line) as [|a [|b rest]]; [done|..];
    unfold mbind, result_bind.
  - by destruct (py_int a).
  - destruct (py_int a) eqn:Ha; [|done]. destruct (py_int b) eqn:Hb; [|done].
    destruct rest as [|c rest]; [|by destruct (py_int c)].
    intros _. apply py_int_no_letter in Ha, Hb. rewrite <- Hsplit. simpl.
    by rewrite Ha, Hb.
Qed.

(** A line with a letter is not read as two integers. *)
Lemma parse_move_letter (line : string) :
  has_letter line = true -> parse_move line = Raise ValueError.
Proof.
  intros Hletter. destruct (parse_move line) as [rc|e] eqn:Hparse.
  - apply parse_move_no_letter in Hparse. congruence.
  - by apply parse_move_error in Hparse as ->.
Qed.

Lemma loop_on_cell_line (line : string) (rest : list string) (rc : Z * Z)
    (rowcol : option (Z * Z)) (w : World) :
  names_cell line rc ->
  Player_move_loop (line :: rest) rowcol w =
  match cell_at (_board w) rc with
  | Some spot =>
      if spot =? " " then (Ok rc, prompted rest w)
      else Player_move_loop rest (Some rc)
             (printed occupied_message (prompted rest w))
  | None => (Raise IndexError, prompted rest w)
  end.
Proof.
  intros (-> & Hrow & Hcol). rewrite Player_move_loop_cons.
  rewrite parse_move_move_line by done. by destruct rc.
Qed.

Lemma loop_on_letter_line (line : string) (rest : list string)
    (rowcol : option (Z * Z)) (w : World) :
  has_letter line = true ->
  Player_move_loop (line :: rest) rowcol w =
  match rowcol with
  | None =>
      (Raise UnboundLocalError, printed invalid_message (prompted rest w))
  | Some rc =>
      match cell_at (_board w) rc with
      | Some spot =>
          if spot =? " "
          then (Ok rc, printed invalid_message (prompted rest w))
          else Player_move_loop rest (Some rc)
                 (printed occupied_message
                    (printed invalid_message (prompted rest w)))
      | None => (Raise IndexError, printed invalid_message (prompted rest w))
      end
  end.
Proof.
  intros Hletter. rewrite Player_move_loop_cons.
  by rewrite parse_move_letter.
Qed.

(** X8. The first line that a call of [Player.move] reads decides as
    follows.  The numerals of a coordinate that denotes an empty cell:
    the coordinate is returned, and only the prompt was printed.  The
    numerals of a coordinate that denotes no cell of the board:
    [IndexError] is raised.  A line with a letter: the message for
    incorrect input is printed and [UnboundLocalError] is raised.  In
    each case exactly one line was read. *)
Theorem Player_move_first_line (w : World) (line : string) (rest : list string) :
  stdin w = line :: rest ->
  (forall rc, names_cell line rc -> cell_at (_board w) rc = Some " " ->
     Player_move w = (Ok rc, prompted rest w)) /\
  (forall rc, names_cell line rc -> cell_at (_board w) rc = None ->
     Player_move w = (Raise IndexError, prompted rest w)) /\
  (has_letter line = true ->
     Player_move w
       = (Raise UnboundLocalError, printed invalid_message (prompted rest w))).
Proof.
  intros Hstdin. unfold Player_move. rewrite Hstdin. split; [|split].
  - intros rc Hline Hcell. by rewrite (loop_on_cell_line line rest rc), Hcell.
  - intros rc Hline Hcell. by rewrite (loop_on_cell_line line rest rc), Hcell.
  - intros Hletter. by rewrite loop_on_letter_line.
Qed.

Lemma Player_move_first_line_witness :
  stdin (initial_world ["x y"; "1 1"] zeros) = ["x y"; "1 1"] /\
  (forall rc, names_cell "x y" rc ->
     cell_at (_board (initial_world ["x y"; "1 1"] zeros)) rc = Some " " ->
     Player_move (initial_world ["x y"; "1 1"] zeros)
       = (Ok rc, prompted ["1 1"] (initial_world ["x y"; "1 1"] zeros))) /\
  (forall rc, names_cell "x y" rc ->
     cell_at (_board (initial_world ["x y"; "1 1"] zeros)) rc = None ->
     Player_move (initial_world ["x y"; "1 1"] zeros)
       = (Raise IndexError, prompted ["1 1"] (initial_world ["x y"; "1 1"] zeros))) /\
  (has_letter "x y" = true ->
     Player_move (initial_world ["x y"; "1 1"] zeros)
       = (Raise UnboundLocalError,
          printed invalid_message
            (prompted ["1 1"] (initial_world ["x y"; "1 1"] zeros)))).
Proof.
  split; [reflexivity|].
  exact (Player_move_first_line (initial_world ["x y"; "1 1"] zeros)
           "x y" ["1 1"] eq_refl).
Defined.

(** Lines that are passed over leave the loop where it was: with the
    coordinate of an occupied cell in [row] and [col], and the board and
    the random source untouched. *)
Lemma Player_move_loop_passes (skipped tail : list string) (rc0 : Z * Z)
    (w : World) :
  occupied_at (_board w) rc0 ->
  stdin w = skipped ++ tail ->
  Forall (passed_over (_board w)) skipped ->
  exists (rc1 : Z * Z) (w1 : World),
    occupied_at (_board w) rc1 /\
    _board w1 = _board w /\ draws w1 = draws w /\ drawn w1 = drawn w /\
    stdin w1 = tail /\
    Player_move_loop (skipped ++ tail) (Some rc0) w
      = Player_move_loop tail (Some rc1) w1.
Proof.
  revert rc0 w. induction skipped as [|line skipped IH];
    intros rc0 w Hrc0 Hstdin Hpassed.
  - by exists rc0, w.
  - apply Forall_cons in Hpassed as [Hline Hpassed].
    rewrite <- app_comm_cons.
    destruct Hline as [Hletter | (rc & Hname & Hrc)].
    + rewrite loop_on_letter_line by done.
      destruct Hrc0 as (spot0 & Hcell0 & Hspot0). rewrite Hcell0.
      destruct (String.eqb_spec spot0 " ") as [->|_]; [done|].
      set (w' := printed _ _).
      destruct (IH rc0 w') as (rc1 & w1 & H1); try done.
      { by exists spot0. }
      exists rc1, w1. exact H1.
    + rewrite (loop_on_cell_line line _ rc) by done.
      destruct Hrc as (spot & Hcell & Hspot). rewrite Hcell.
      destruct (String.eqb_spec spot " ") as [->|_]; [done|].
      set (w' := printed _ _).
      destruct (IH rc w') as (rc1 & w1 & H1); try done.
      { by exists spot. }
      exists rc1, w1. exact H1.
Qed.

(** X9. [Player.move] asks again until a line gives an empty cell: when
    the first line read gives the coordinate of an occupied cell, the
    lines after it give coordinates of occupied cells or hold a letter,
    and then a line gives the coordinate of an empty cell, that
    coordinate is returned; the lines up to it are consumed, and the
    board and the random source are as before. *)
Theorem Player_move_asks_again (w : World) (first good : string)
    (skipped rest : list string) (rc0 rc : Z * Z) :
  stdin w = first :: skipped ++ good :: rest ->
  names_cell first rc0 -> occupied_at (_board w) rc0 ->
  Forall (passed_over (_board w)) skipped ->
  names_cell good rc -> cell_at (_board w) rc = Some " " ->
  exists w' : World,
    Player_move w = (Ok rc, w') /\
    stdin w' = rest /\ _board w' = _board w /\
    draws w' = draws w /\ drawn w' = drawn w.
Proof.
  intros Hstdin Hfirst Hrc0 Hskipped Hgood Hrc. unfold Player_move.
  rewrite Hstdin, (loop_on_cell_line first _ rc0) by done.
  pose proof Hrc0 as (spot0 & Hcell0 & Hspot0). rewrite Hcell0.
  destruct (String.eqb_spec spot0 " ") as [->|_]; [done|].
  set (w0 := printed _ _).
  destruct (Player_move_loop_passes skipped (good :: rest) rc0 w0)
    as (rc1 & w1 & Hrc1 & Hb & Hd & Hn & Hin & ->); try done.
  rewrite (loop_on_cell_line good _ rc) by done.
  rewrite Hb. change (_board w0) with (_board w). rewrite Hrc. simpl.
  eexists. split; [done|]. simpl. by rewrite Hb, Hd, Hn.
Qed.

Lemma Player_move_asks_again_witness :
  stdin world_five_lines = "1 1" :: ["abc"; "1 1"] ++ "0 0" :: ["2 2"] /\
  names_cell "1 1" (1, 1) /\ occupied_at (_board world_five_lines) (1, 1) /\
  Forall (passed_over (_board world_five_lines)) ["abc"; "1 1"] /\
  names_cell "0 0" (0, 0) /\
  cell_at (_board world_five_lines) (0, 0) = Some " " /\
  exists w' : World,
    Player_move world_five_lines = (Ok (0, 0), w') /\
    stdin w' = ["2 2"] /\ _board w' = _board world_five_lines /\
    draws w' = draws world_five_lines /\ drawn w' = drawn world_five_lines.
Proof.
  assert (H11 : names_cell "1 1" (1, 1))
    by (split; [reflexivity | split; unfold short; simpl; lia]).
  assert (H00 : names_cell "0 0" (0, 0))
    by (split; [reflexivity | split; unfold short; simpl; lia]).
  assert (Hocc : occupied_at (_board world_five_lines) (1, 1))
    by (exists "X"; split; [reflexivity | discriminate]).
  assert (Hskipped : Forall (passed_over (_board world_five_lines))
                       ["abc"; "1 1"]).
  { apply Forall_cons. split; [left; reflexivity|].
    apply Forall_cons. split; [|by apply Forall_nil].
    right. exists (1, 1). split; [exact H11 | exact Hocc]. }
  split; [reflexivity|]. split; [exact H11|]. split; [exact Hocc|].
  split; [exact Hskipped|]. split; [exact H00|]. split; [reflexivity|].
  exact (Player_move_asks_again world_five_lines "1 1" "0 0" ["abc"; "1 1"]
           ["2 2"] (1, 1) (0, 0) eq_refl H11 Hocc Hskipped H00 eq_refl).
Defined.

(** X10. [Player.move] does not outlive its input: with no line to read,
    or when the first line gives the coordinate of an occupied cell and
    every line after it gives the coordinate of an occupied cell or
    holds a letter, [input] raises [EOFError] out of the loop once all
    lines are consumed; the board and the random source are as
    before. *)
Theorem Player_move_end_of_input (w : World) :
  match stdin w with
  | [] => True
  | first :: skipped =>
      (exists rc0, names_cell first rc0 /\ occupied_at (_board w) rc0) /\
      Forall (passed_over (_board w)) skipped
  end ->
  exists w' : World,
    Player_move w = (Raise EOFError, w') /\
    stdin w' = [] /\ _board w' = _board w /\
    draws w' = draws w /\ drawn w' = drawn w.
Proof.
  unfold Player_move. destruct (stdin w) as [|first skipped] eqn:Hstdin.
  - intros _. eexists. split; [reflexivity|]. simpl. by rewrite Hstdin.
  - intros [(rc0 & Hfirst & Hrc0) Hskipped].
    rewrite (loop_on_cell_line first _ rc0) by done.
    pose proof Hrc0 as (spot0 & Hcell0 & Hspot0). rewrite Hcell0.
    destruct (String.eqb_spec spot0 " ") as [->|_]; [done|].
    set (w0 := printed _ _).
    destruct (Player_move_loop_passes skipped [] rc0 w0)
      as (rc1 & w1 & Hrc1 & Hb & Hd & Hn & Hin & Heq); try done.
    { simpl. by rewrite app_nil_r. }
    rewrite app_nil_r in Heq. rewrite Heq.
    eexists. split; [reflexivity|]. simpl. by rewrite Hb, Hd, Hn, Hin.
Qed.

Lemma Player_move_end_of_input_witness :
  ((exists rc0, names_cell "1 1" rc0 /\
                occupied_at (_board world_stubborn_lines) rc0) /\
   Forall (passed_over (_board world_stubborn_lines)) ["one one"; "-2 -2"]) /\
  exists w' : World,
    Player_move world_stubborn_lines = (Raise EOFError, w') /\
    stdin w' = [] /\ _board w' = _board world_stubborn_lines /\
    draws w' = draws world_stubborn_lines /\
    drawn w' = drawn world_stubborn_lines.
Proof.
  assert (H11 : names_cell "1 1" (1, 1))
    by (split; [reflexivity | split; unfold short; simpl; lia]).
  assert (H22 : names_cell "-2 -2" (-2, -2))
    by (split; [reflexivity | split; unfold short; simpl; lia]).
  assert (Hocc : occupied_at (_board world_stubborn_lines) (1, 1))
    by (exists "X"; split; [reflexivity | discriminate]).
  assert (Hocc' : occupied_at (_board world_stubborn_lines) (-2, -2))
    by (exists "X"; split; [reflexivity | discriminate]).
  assert (H : (exists rc0, names_cell "1 1" rc0 /\
                           occupied_at (_board world_stubborn_lines) rc0) /\
              Forall (passed_over (_board world_stubborn_lines))
                ["one one"; "-2 -2"]).
  { split; [exists (1, 1); split; [exact H11 | exact Hocc]|].
    apply Forall_cons. split; [left; reflexivity|].
    apply Forall_cons. split; [|by apply Forall_nil].
    right. exists (-2, -2). split; [exact H22 | exact Hocc']. }
  split; [exact H | exact (Player_move_end_of_input world_stubborn_lines H)].
Defined.

Lemma Player_move_loop_frame (lines : list string) (rowcol : option (Z * Z))
    (w w' : World) (r : result (Z * Z)) :
  stdin w = lines ->
  Player_move_loop lines rowcol w = (r, w') ->
  _board w' = _board w /\ draws w' = draws w /\ drawn w' = drawn w /\
  (exists used, lines = used ++ stdin w') /\
  r <> Raise CellIsNotEmptyError /\ r <> Raise ValueError /\
  (forall rc, r = Ok rc -> cell_at (_board w) rc = Some " ").
Proof.
  revert rowcol w. induction lines as [|line rest IH]; intros rowcol w Hstdin.
  - simpl. intros [= <- <-]. simpl. repeat split; try done. by exists [].
  - rewrite Player_move_loop_cons. cbv zeta.
    set (w1 := match parse_move line with
               | Ok _ => prompted rest w
               | Raise _ => printed invalid_message (prompted rest w)
               end).
    assert (Hw1 : _board w1 = _board w /\ draws w1 = draws w /\
                  drawn w1 = drawn w /\ stdin w1 = rest)
      by (unfold w1; by destruct (parse_move line)).
    destruct Hw1 as (Hb & Hd & Hn & Hin).
    assert (Hused : exists used, line :: rest = used ++ stdin w1)
      by (exists [line]; by rewrite Hin).
    destruct (match parse_move line with Ok rc => Some rc | Raise _ => rowcol end)
      as [rc|]; [|intros [= <- <-]; by repeat split].
    destruct (cell_at (_board w) rc) as [spot|] eqn:Hrc;
      [|intros [= <- <-]; by repeat split].
    destruct (String.eqb_spec spot " ") as [->|Hspot].
    + intros [= <- <-]. repeat split; try done. by intros rc' [= <-].
    + intros Hrec. apply IH in Hrec; [|by simpl].
      simpl in Hrec. rewrite Hb, Hd, Hn in Hrec.
      destruct Hrec as (? & ? & ? & [used ->] & ? & ? & ?).
      repeat split; try done. by exists (line :: used).
Qed.

(** X11. Whatever it reads and however it ends, [Player.move] leaves the
    board and the random source as they were and only consumes lines
    from the front of standard input; it never raises
    [CellIsNotEmptyError] or [ValueError]; and a coordinate that it
    returns denotes an empty cell of the board. *)
Theorem Player_move_frame (w w' : World) (r : result (Z * Z)) :
  Player_move w = (r, w') ->
  _board w' = _board w /\ draws w' = draws w /\ drawn w' = drawn w /\
  (exists used, stdin w = used ++ stdin w') /\
  r <> Raise CellIsNotEmptyError /\ r <> Raise ValueError /\
  (forall rc, r = Ok rc -> cell_at (_board w) rc = Some " ").
Proof. unfold Player_move. by apply Player_move_loop_frame. Qed.

Lemma Player_move_frame_witness :
  Player_move world_five_lines
    = (Ok (0, 0), snd (Player_move world_five_lines)) /\
  _board (snd (Player_move world_five_lines)) = _board world_five_lines /\
  draws (snd (Player_move world_five_lines)) = draws world_five_lines /\
  drawn (snd (Player_move world_five_lines)) = drawn world_five_lines /\
  (exists used,
     stdin world_five_lines = used ++ stdin (snd (Player_move world_five_lines))) /\
  Ok (0, 0) <> Raise CellIsNotEmptyError /\
  Ok (0, 0) <> Raise ValueError /\
  (forall rc, Ok (0, 0) = Ok rc ->
     cell_at (_board world_five_lines) rc = Some " ").
Proof.
  assert (H : Player_move world_five_lines
              = (Ok (0, 0), snd (Player_move world_five_lines)))
    by reflexivity.
  split; [exact H|].
  exact (Player_move_frame world_five_lines
           (snd (Player_move world_five_lines)) (Ok (0, 0)) H).
Defined.

(** * Further properties of a session *)

(** ** Who holds which mark *)

Lemma random_shuffle_pair_by_draw {A} (x y : A) (w : World) :
  random_shuffle [x; y] w
  = (Ok (if Nat.eqb (draws w (drawn w) mod 2) 0 then [y; x] else [x; y]),
     mkWorld (_board w) (stdin w) (stdout w) (draws w) (S (drawn w))).
Proof.
  unfold random_shuffle. cbn [length Nat.sub].
  unfold shuffle_from, mbind, M_bind, randbelow.
  set (k := (draws w (drawn w) mod 2)%nat).
  assert (Hlt : (k < 2)%nat) by (apply Nat.mod_upper_bound; lia).
  clearbody k. destruct k as [|[|k]]; [reflexivity | reflexivity | lia].
Qed.

(** X12. [get_shuffled_players] takes one draw from the random source and
    returns the two marks in one of their two orders: ["O"] first when
    the draw is even, ["X"] first when it is odd.  Nothing else of the
    world changes. *)
Theorem get_shuffled_players_by_draw (w : World) :
  exists l : list string,
    get_shuffled_players w
      = (Ok l, mkWorld (_board w) (stdin w) (stdout w) (draws w) (S (drawn w))) /\
    l ≡ₚ PLAYERS_VALUES /\
    ((draws w (drawn w) mod 2 = 0)%nat -> l = ["O"; "X"]) /\
    ((draws w (drawn w) mod 2 = 1)%nat -> l = ["X"; "O"]).
Proof.
  unfold get_shuffled_players, PLAYERS_VALUES.
  rewrite random_shuffle_pair_by_draw.
  destruct (draws w (drawn w) mod 2)%nat as [|k]; simpl.
  - exists ["O"; "X"]. split; [done|]. split; [apply Permutation_swap|].
    by split.
  - exists ["X"; "O"]. by repeat split.
Qed.

(** X13. The start of [main] takes two draws from the random source.  The
    human holds ["X"], and moves first, when the two draws have the same
    parity; otherwise the computer holds ["X"] and moves first.  It
    prints who moves first and the new board, and reads nothing. *)
Theorem main_setup_by_draws (w : World) :
  exists (current human cpu : BasePlayer) (w' : World),
    main_setup w = (Ok (current, human, cpu), w') /\
    ((draws w (drawn w) mod 2 = draws w (S (drawn w)) mod 2)%nat ->
     human = Player "X" /\ cpu = CPUPlayer "O" /\ current = human) /\
    ((draws w (drawn w) mod 2 <> draws w (S (drawn w)) mod 2)%nat ->
     human = Player "O" /\ cpu = CPUPlayer "X" /\ current = cpu) /\
    w' = mkWorld new_board (stdin w)
           (stdout w ++ ["Первый ход делает: " +:+ BasePlayer_str current;
                         Board_str new_board])
           (draws w) (S (S (drawn w))).
Proof.
  unfold main_setup, get_shuffled_players, PLAYERS_VALUES.
  step_bind. rewrite random_shuffle_pair_by_draw.
  remember (draws w (drawn w) mod 2)%nat as d0 eqn:Hd0.
  remember (draws w (S (drawn w)) mod 2)%nat as d1 eqn:Hd1.
  assert (H0 : (d0 < 2)%nat) by (subst d0; apply Nat.mod_upper_bound; lia).
  assert (H1 : (d1 < 2)%nat) by (subst d1; apply Nat.mod_upper_bound; lia).
  destruct d0 as [|[|k0]]; [| |lia];
    cbn [Nat.eqb]; step_bind; rewrite random_shuffle_pair_by_draw;
    cbn [draws drawn]; rewrite <- Hd1;
    (destruct d1 as [|[|k1]]; [| |lia]); cbn [Nat.eqb].
  - eexists (Player "X"), (Player "X"), (CPUPlayer "O"), _.
    split; [reflexivity|]. split; [done|]. split; [done|].
    simpl. by rewrite <- app_assoc.
  - eexists (CPUPlayer "X"), (Player "O"), (CPUPlayer "X"), _.
    split; [reflexivity|]. split; [done|]. split; [done|].
    simpl. by rewrite <- app_assoc.
  - eexists (CPUPlayer "X"), (Player "O"), (CPUPlayer "X"), _.
    split; [reflexivity|]. split; [done|]. split; [done|].
    simpl. by rewrite <- app_assoc.
  - eexists (Player "X"), (Player "X"), (CPUPlayer "O"), _.
    split; [reflexivity|]. split; [done|]. split; [done|].
    simpl. by rewrite <- app_assoc.
Qed.

(** ** One pass through the loop *)

Lemma CPUPlayer_move_result (w w' : World) (r : result (Z * Z)) :
  wf_board (_board w) ->
  CPUPlayer_move w = (r, w') ->
  _board w' = _board w /\ (r = Raise IndexError \/ exists rc, r = Ok rc).
Proof.
  intros Hwf. unfold CPUPlayer_move, mbind, M_bind, get_board, lift.
  rewrite get_empty_spots_filter by done.
  destruct (List.filter _ _) as [|spot spots]; [intros [= <- <-]; tauto|].
  destruct (random_choice_elem (spot :: spots) w) as ([row col] & _ & ->);
    [done|].
  simpl. intros [= <- <-]. split; [done|]. right. by eexists.
Qed.

Lemma move_frame (p : BasePlayer) (w w' : World) (r : result (Z * Z)) :
  wf_board (_board w) ->
  move p w = (r, w') ->
  _board w' = _board w /\
  r <> Raise CellIsNotEmptyError /\ r <> Raise ValueError.
Proof.
  intros Hwf. destruct p as [v|v]; simpl.
  - intros H. apply Player_move_loop_frame in H; [|done]. tauto.
  - intros H. apply CPUPlayer_move_result in H as [Hb Hr]; [|done].
    split; [done|]. destruct Hr as [-> | [rc ->]]; by split.
Qed.

(** One pass through the loop of [main], in full: either the player's
    [move] raises and the board is untouched, or the mark is placed on an
    empty cell and the new board decides how the loop goes on. *)
Lemma turn_cases (current human cpu : BasePlayer) (w w' : World)
    (r : result outcome) :
  wf_board (_board w) ->
  turn current human cpu w = (r, w') ->
  (exists e, r = Raise e /\ _board w' = _board w /\
             e <> CellIsNotEmptyError /\ e <> ValueError) \/
  (exists kr kc,
     cell (_board w) kr kc = Some " " /\
     _board w' = set_cell (_board w) kr kc (value current) /\
     r = Ok (judged (_board w') current human cpu)).
Proof.
  intros Hwf. unfold turn, loop_body. step_bind.
  destruct (move current w) as [[[row col]|e] w1] eqn:Hmove.
  - destruct (move_then_place current (value current) w w1 row col Hwf Hmove)
      as (kr & kc & Hcell & Hplace).
    unfold place_and_judge. step_bind. rewrite Hplace.
    set (b' := set_cell (_board w) kr kc (value current)).
    unfold mbind, M_bind, get_board, print, lift, with_board. cbn [_board].
    rewrite check_winner_has_line by (by apply wf_set_cell).
    intros Hr. right. exists kr, kc. split; [done|]. unfold judged.
    destruct (has_line b' (value current)) eqn:Hline.
    + injection Hr as <- <-. cbn [_board]. fold b'. by rewrite Hline.
    + destruct (is_full b') eqn:Hfull; injection Hr as <- <-; cbn [_board];
        fold b'; by rewrite Hline, Hfull.
  - intros [= <- <-]. left. exists e.
    apply move_frame in Hmove as (Hb & Hc & Hv); [|done].
    repeat split; congruence.
Qed.




(** X14. When a pass through the loop of [main] ends without an
    exception, the mark of the current player has been put on a cell
    that was empty, and nothing else on the board has changed.  The pass
    declares a win exactly when that mark then holds a line, a draw
    exactly when it holds no line and the board is full, and otherwise
    hands the move to the other player: to the human after the
    computer, to the computer after the human. *)
Theorem turn_outcome (current human cpu : BasePlayer) (w w' : World)
    (o : outcome) :
  wf_board (_board w) ->
  turn current human cpu w = (Ok o, w') ->
  (exists kr kc,
     cell (_board w) kr kc = Some " " /\
     forall i j, cell (_board w') i j =
                 if decide (i = kr /\ j = kc) then Some (value current)
                 else cell (_board w) i j) /\
  (o = Won (value current) <->
   exists l, l ∈ lines /\ line_held (_board w') (value current) l) /\
  (o = Draw <->
   (~ exists l, l ∈ lines /\ line_held (_board w') (value current) l) /\
   is_full (_board w') = true) /\
  (o = AwaitingMove (if is_CPUPlayer current then human else cpu) <->
   (~ exists l, l ∈ lines /\ line_held (_board w') (value current) l) /\
   is_full (_board w') = false) /\
  (o = Won (value current) \/ o = Draw \/
   o = AwaitingMove (if is_CPUPlayer current then human else cpu)).
Proof.
  intros Hwf Hturn.
  destruct (turn_cases _ _ _ _ _ _ Hwf Hturn)
    as [(e & He & _) | (kr & kc & Hcell & Hb & Ho)]; [done|].
  injection Ho as ->. split.
  { exists kr, kc. split; [done|]. intros i j.
    rewrite Hb, cell_set_cell. case_decide as Hij; [|done].
    destruct Hij as [-> ->]. by rewrite Hcell. }
  rewrite <- has_line_true. unfold judged.
  destruct (has_line (_board w') (value current)).
  - repeat split; try done; try (by intros [? ?]); tauto.
  - destruct (is_full (_board w')).
    + repeat split; try done; try (by intros [? ?]); tauto.
    + repeat split; try done; try (by intros [? ?]); tauto.
Qed.

Lemma turn_outcome_witness :
  wf_board (_board world_centre_x) /\
  turn (CPUPlayer "O") (Player "X") (CPUPlayer "O") world_centre_x
    = (Ok (AwaitingMove (Player "X")),
       snd (turn (CPUPlayer "O") (Player "X") (CPUPlayer "O")
              world_centre_x)) /\
  exists w' : World,
    w' = snd (turn (CPUPlayer "O") (Player "X") (CPUPlayer "O")
                world_centre_x) /\
    (exists kr kc,
       cell (_board world_centre_x) kr kc = Some " " /\
       forall i j, cell (_board w') i j =
                   if decide (i = kr /\ j = kc) then Some "O"
                   else cell (_board world_centre_x) i j) /\
    (AwaitingMove (Player "X") = Won "O" <->
     exists l, l ∈ lines /\ line_held (_board w') "O" l) /\
    (AwaitingMove (Player "X") = Draw <->
     (~ exists l, l ∈ lines /\ line_held (_board w') "O" l) /\
     is_full (_board w') = true) /\
    (AwaitingMove (Player "X") = AwaitingMove (Player "X") <->
     (~ exists l, l ∈ lines /\ line_held (_board w') "O" l) /\
     is_full (_board w') = false) /\
    (AwaitingMove (Player "X") = Won "O" \/ AwaitingMove (Player "X") = Draw \/
     AwaitingMove (Player "X") = AwaitingMove (Player "X")).
Proof.
  assert (Hwf : wf_board (_board world_centre_x))
    by (split; [reflexivity | repeat constructor]).
  assert (Hturn :
    turn (CPUPlayer "O") (Player "X") (CPUPlayer "O") world_centre_x
    = (Ok (AwaitingMove (Player "X")),
       snd (turn (CPUPlayer "O") (Player "X") (CPUPlayer "O")
              world_centre_x))) by reflexivity.
  split; [exact Hwf|]. split; [exact Hturn|].
  eexists. split; [reflexivity|].
  exact (turn_outcome (CPUPlayer "O") (Player "X") (CPUPlayer "O")
           world_centre_x _ _ Hwf Hturn).
Defined.

(** X15. A pass through the loop of [main] with one of the program's two
    players raises nothing but [EOFError], [UnboundLocalError] or
    [IndexError], and when it raises, the board is as it was.  In
    particular the placement in the loop never fails: [move] returns
    only cells that [set_cell_value] accepts. *)
Theorem turn_exceptions (current human cpu : BasePlayer) (w : World) (e : exn) :
  wf_board (_board w) ->
  fst (turn current human cpu w) = Raise e ->
  e ∈ [EOFError; UnboundLocalError; IndexError] /\
  _board (snd (turn current human cpu w)) = _board w.
Proof.
  intros Hwf Hraise.
  destruct (turn current human cpu w) as [r w'] eqn:Hturn. simpl in *. subst r.
  destruct (turn_cases _ _ _ _ _ _ Hwf Hturn)
    as [(e' & He & Hb & Hc & Hv) | (kr & kc & _ & _ & Ho)]; [|done].
  injection He as <-. split; [|done].
  destruct e; try done; apply (bool_decide_unpack _); by vm_compute.
Qed.

Lemma turn_exceptions_witness :
  wf_board (_board world_centre_x) /\
  fst (turn (Player "O") (Player "O") (CPUPlayer "X") world_centre_x)
    = Raise EOFError /\
  EOFError ∈ [EOFError; UnboundLocalError; IndexError] /\
  _board (snd (turn (Player "O") (Player "O") (CPUPlayer "X") world_centre_x))
    = _board world_centre_x.
Proof.
  assert (Hwf : wf_board (_board world_centre_x))
    by (split; [reflexivity | repeat constructor]).
  split; [exact Hwf|]. split; [reflexivity|].
  exact (turn_exceptions (Player "O") (Player "O") (CPUPlayer "X")
           world_centre_x EOFError Hwf eq_refl).
Defined.

(** ** The length of a game *)

Lemma play_more (n : nat) (current human cpu : BasePlayer) (w w' : World)
    (r : result outcome) :
  play n current human cpu w = (r, w') ->
  (forall next, r <> Ok (AwaitingMove next)) ->
  play (S n) current human cpu w = (r, w').
Proof.
  revert current w. induction n as [|n IH]; intros current w Hplay Hr.
  - injection Hplay as <- <-. by destruct (Hr current).
  - unfold play in *. simpl in Hplay |- *.
    unfold mbind, M_bind in Hplay |- *.
    destruct (loop_body (move current) current human cpu w) as [[o|e] w1];
      [|done].
    destruct o as [next| |]; [|done|done].
    apply (IH next w1) in Hplay; [|done]. exact Hplay.
Qed.

(** X16. The loop of [main] ends within nine passes: [main] with nine
    passes ends with a win, a draw or an exception, and more passes give
    the same result and the same world. *)
Theorem main_nine_passes (n : nat) (w : World) :
  (9 <= n)%nat ->
  main n w = main 9 w /\
  forall next, fst (main 9 w) <> Ok (AwaitingMove next).
Proof.
  intros Hn.
  assert (Hends : forall next, fst (main 9 w) <> Ok (AwaitingMove next)).
  { intros next H. destruct (main 9 w) as [r w'] eqn:Hmain. simpl in H.
    subst r. by apply main_ends in Hmain. }
  split; [|done].
  destruct (main_setup_players w)
    as (current & human & cpu & w1 & Hsetup & _ & _).
  unfold main, mbind, M_bind in *. rewrite Hsetup in *.
  induction Hn as [|n Hn IH]; [done|].
  rewrite <- IH.
  destruct (play n current human cpu w1) as [r w'] eqn:Hplay.
  apply play_more; [done|]. intros next ->. apply (Hends next).
  by rewrite <- IH.
Qed.

Lemma main_nine_passes_witness :
  (9 <= 12)%nat /\
  main 12 (initial_world ["1 1"; "0 0"] zeros)
    = main 9 (initial_world ["1 1"; "0 0"] zeros) /\
  forall next,
    fst (main 9 (initial_world ["1 1"; "0 0"] zeros)) <> Ok (AwaitingMove next).
Proof.
  assert (H : (9 <= 12)%nat) by lia.
  split; [exact H|].
  exact (main_nine_passes 12 (initial_world ["1 1"; "0 0"] zeros) H).
Defined.

(** ** What every game keeps *)

Lemma count_row_insert (r : list string) (k : nat) (old value mark : string) :
  r !! k = Some old ->
  (length (List.filter (fun spot => String.eqb spot mark) (<[k:=value]> r))
   + (if String.eqb old mark then 1 else 0)
   = length (List.filter (fun spot => String.eqb spot mark) r)
     + (if String.eqb value mark then 1 else 0))%nat.
Proof.
  revert k. induction r as [|x r IH]; intros k Hk; [done|].
  destruct k as [|k]; simpl in *.
  - injection Hk as ->.
    destruct (String.eqb value mark), (String.eqb old mark); simpl; lia.
  - specialize (IH k Hk). destruct (String.eqb x mark); simpl; lia.
Qed.

Lemma count_mark_placed (b : Board) (kr kc : nat) (old value mark : string) :
  cell b kr kc = Some old ->
  (count_mark (set_cell b kr kc value) mark
   + (if String.eqb old mark then 1 else 0)
   = count_mark b mark + (if String.eqb value mark then 1 else 0))%nat.
Proof.
  unfold count_mark, set_cell, cell. revert kr.
  induction b as [|r b IH]; intros kr Hcell; [done|].
  destruct kr as [|kr]; simpl in *.
  - rewrite !List.filter_app, !length_app.
    pose proof (count_row_insert r kc old value mark Hcell). lia.
  - rewrite !List.filter_app, !length_app. specialize (IH kr Hcell).
    unfold alter in IH. lia.
Qed.

Lemma cells_valid_set_cell (b : Board) (kr kc : nat) (value : string) :
  cells_valid b -> value ∈ PLAYERS_VALUES ->
  cells_valid (set_cell b kr kc value).
Proof.
  intros Hb Hvalue. unfold cells_valid, set_cell.
  apply Forall_alter; [done|]. intros r _ Hr.
  apply Forall_insert; [done|]. apply elem_of_cons. by right.
Qed.

(** The board of a game in progress, when [current] is to move: the
    human and the computer hold the two marks, and ["X"] has moved as
    often as ["O"] when ["X"] is to move, once more otherwise. *)
Lemma play_keeps (n : nat) (current human cpu : BasePlayer) (w w' : World)
    (r : result outcome) :
  wf_board (_board w) -> cells_valid (_board w) ->
  (human = Player "X" /\ cpu = CPUPlayer "O") \/
  (human = Player "O" /\ cpu = CPUPlayer "X") ->
  current = human \/ current = cpu ->
  count_mark (_board w) "X"
    = (if String.eqb (value current) "X" then count_mark (_board w) "O"
       else S (count_mark (_board w) "O")) ->
  play n current human cpu w = (r, w') ->
  wf_board (_board w') /\ cells_valid (_board w') /\ marks_balanced (_board w').
Proof.
  revert current w. induction n as [|n IH];
    intros current w Hwf Hvalid Hmarks Hcurrent Hcount Hplay.
  - injection Hplay as <- <-. split; [done|]. split; [done|].
    unfold marks_balanced. destruct (String.eqb (value current) "X"); lia.
  - unfold play in Hplay. simpl in Hplay. unfold mbind, M_bind in Hplay.
    fold (turn current human cpu) in Hplay. fold play in Hplay.
    destruct (turn current human cpu w) as [r1 w1] eqn:Hturn.
    destruct (turn_cases _ _ _ _ _ _ Hwf Hturn)
      as [(e & -> & Hb & _) | (kr & kc & Hcell & Hb & ->)].
    + injection Hplay as <- <-. rewrite Hb. split; [done|]. split; [done|].
      unfold marks_balanced. destruct (String.eqb (value current) "X"); lia.
    + assert (Hvalue : value current ∈ PLAYERS_VALUES).
      { unfold PLAYERS_VALUES.
        destruct Hmarks as [[-> ->] | [-> ->]], Hcurrent as [-> | ->]; simpl;
          apply (bool_decide_unpack _); by vm_compute. }
      assert (Hwf1 : wf_board (_board w1)) by (rewrite Hb; by apply wf_set_cell).
      assert (Hvalid1 : cells_valid (_board w1))
        by (rewrite Hb; by apply cells_valid_set_cell).
      pose proof (count_mark_placed (_board w) kr kc " " (value current) "X" Hcell)
        as HX.
      pose proof (count_mark_placed (_board w) kr kc " " (value current) "O" Hcell)
        as HO.
      rewrite <- Hb in HX, HO.
      assert (Hafter : forall next,
                next = (if is_CPUPlayer current then human else cpu) ->
                (next = human \/ next = cpu) /\
                count_mark (_board w1) "X"
                = (if String.eqb (value next) "X" then count_mark (_board w1) "O"
                   else S (count_mark (_board w1) "O"))).
      { intros next ->.
        destruct Hmarks as [[-> ->] | [-> ->]], Hcurrent as [-> | ->];
          simpl in *; (split; [tauto | lia]). }
      unfold judged in Hplay.
      destruct (has_line (_board w1) (value current)).
      { injection Hplay as <- <-. split; [done|]. split; [done|].
        unfold marks_balanced.
        destruct Hmarks as [[-> ->] | [-> ->]], Hcurrent as [-> | ->];
          simpl in *; lia. }
      destruct (is_full (_board w1)).
      { injection Hplay as <- <-. split; [done|]. split; [done|].
        unfold marks_balanced.
        destruct Hmarks as [[-> ->] | [-> ->]], Hcurrent as [-> | ->];
          simpl in *; lia. }
      destruct (Hafter _ eq_refl) as [Hnext Hcount1].
      by apply (IH (if is_CPUPlayer current then human else cpu) w1).
Qed.

(** X17. Wherever [main] stops (after any number of passes, with a win, a
    draw or an exception), the board has three rows of three cells, each
    cell is blank or holds ["X"] or ["O"], and ["X"] is on the board as
    often as ["O"] or once more. *)
Theorem main_keeps (n : nat) (w w' : World) (r : result outcome) :
  main n w = (r, w') ->
  wf_board (_board w') /\ cells_valid (_board w') /\ marks_balanced (_board w').
Proof.
  destruct (main_setup_players w)
    as (current & human & cpu & w1 & Hsetup & Hwho & Hboard).
  unfold main, mbind, M_bind. rewrite Hsetup. apply play_keeps.
  - rewrite Hboard. apply wf_new_board.
  - rewrite Hboard. repeat constructor.
  - tauto.
  - tauto.
  - rewrite Hboard.
    destruct Hwho as [(-> & -> & ->) | (-> & -> & ->)]; reflexivity.
Qed.

Lemma main_keeps_witness :
  main 1 (initial_world ["1 1"] zeros)
    = (Ok (AwaitingMove (CPUPlayer "O")), world_after_centre) /\
  wf_board (_board world_after_centre) /\
  cells_valid (_board world_after_centre) /\
  marks_balanced (_board world_after_centre).
Proof.
  assert (H : main 1 (initial_world ["1 1"] zeros)
              = (Ok (AwaitingMove (CPUPlayer "O")), world_after_centre))
    by reflexivity.
  split; [exact H|].
  exact (main_keeps 1 (initial_world ["1 1"] zeros) world_after_centre
           (Ok (AwaitingMove (CPUPlayer "O"))) H).
Defined.

(** ** The printed board *)

Lemma valid_cell_char (spot : string) :
  spot ∈ " " :: PLAYERS_VALUES -> exists a : ascii, spot = String a "".
Proof.
  unfold PLAYERS_VALUES. intros H.
  repeat (apply elem_of_cons in H as [-> | H]; [by eexists|]).
  by apply elem_of_nil in H.
Qed.

Lemma valid_board_chars (b : Board) :
  wf_board b -> cells_valid b ->
  exists a00 a01 a02 a10 a11 a12 a20 a21 a22 : ascii,
    b = [[String a00 ""; String a01 ""; String a02 ""];
         [String a10 ""; String a11 ""; String a12 ""];
         [String a20 ""; String a21 ""; String a22 ""]].
Proof.
  intros Hwf Hvalid. destruct (wf_board_inv b Hwf)
    as (c00 & c01 & c02 & c10 & c11 & c12 & c20 & c21 & c22 & ->).
  unfold cells_valid in Hvalid. rewrite !Forall_cons in Hvalid.
  destruct Hvalid as ((H00 & H01 & H02 & _) & (H10 & H11 & H12 & _)
                      & (H20 & H21 & H22 & _) & _).
  apply valid_cell_char in H00 as [a00 ->], H01 as [a01 ->], H02 as [a02 ->],
    H10 as [a10 ->], H11 as [a11 ->], H12 as [a12 ->],
    H20 as [a20 ->], H21 as [a21 ->], H22 as [a22 ->].
  by exists a00, a01, a02, a10, a11, a12, a20, a21, a22.
Qed.

(** X18. The text that [Board.__str__] gives for a board of three rows of
    three cells, each blank or a mark, has 47 characters, and it tells
    the board: two such boards with the same text are the same board. *)
Theorem Board_str_tells_the_board (b1 b2 : Board) :
  wf_board b1 -> cells_valid b1 ->
  wf_board b2 -> cells_valid b2 ->
  String.length (Board_str b1) = 47%nat /\
  (Board_str b1 = Board_str b2 -> b1 = b2).
Proof.
  intros Hwf1 Hvalid1 Hwf2 Hvalid2.
  destruct (valid_board_chars b1 Hwf1 Hvalid1)
    as (a00 & a01 & a02 & a10 & a11 & a12 & a20 & a21 & a22 & ->).
  destruct (valid_board_chars b2 Hwf2 Hvalid2)
    as (c00 & c01 & c02 & c10 & c11 & c12 & c20 & c21 & c22 & ->).
  split; [reflexivity|].
  cbn. intros H. injection H as -> -> -> -> -> -> -> -> ->. reflexivity.
Qed.

Lemma Board_str_tells_the_board_witness :
  wf_board board_centre_x /\ cells_valid board_centre_x /\
  wf_board board_full /\ cells_valid board_full /\
  String.length (Board_str board_centre_x) = 47%nat /\
  (Board_str board_centre_x = Board_str board_full ->
   board_centre_x = board_full).
Proof.
  assert (Hwf1 : wf_board board_centre_x)
    by (split; [reflexivity | repeat constructor]).
  assert (Hwf2 : wf_board board_full)
    by (split; [reflexivity | repeat constructor]).
  assert (Hv1 : cells_valid board_centre_x)
    by (repeat (apply Forall_cons; split); try apply Forall_nil;
        apply (bool_decide_unpack _); by vm_compute).
  assert (Hv2 : cells_valid board_full)
    by (repeat (apply Forall_cons; split); try apply Forall_nil;
        apply (bool_decide_unpack _); by vm_compute).
  split; [exact Hwf1|]. split; [exact Hv1|].
  split; [exact Hwf2|]. split; [exact Hv2|].
  exact (Board_str_tells_the_board board_centre_x board_full Hwf1 Hv1 Hwf2 Hv2).
Defined.
